(** * CMake auto-upgrade workflow ([src/cm-upgrade.ts])

    A shallow embedding of the upgrade module of CMake Tools: the stored
    upgrade preference, the installer download with its progress throttle,
    the [pkexec] installer run with its exit-code branches, and the
    [maybeUpgradeCMake] workflow that ties them together.

    The TypeScript is asynchronous and talks to the editor host.  Here every
    function is a computation in a small state-and-exception monad over a
    [World] (persisted global state, files on disk, the clock, and the
    chronological trace of host-visible effects).  What the host answers
    (the platform, the user's replies, the HTTP exchange, the installer's
    exit code, ...) is read from a [Host] record. *)

From Stdlib Require Import ZArith QArith Qround String Ascii List Lia.
From stdpp Require Import gmap strings pretty.
Import ListNotations.

#[local] Set Warnings "-register-all".
Local Open Scope string_scope.
Local Open Scope Z_scope.

(* ===================================================================== *)
(** ** JavaScript values and the coercions the module relies on *)
(* ===================================================================== *)

Module JS.

(** Numbers.  The module only does arithmetic on epoch-millisecond
    timestamps, byte counts and exit codes, which are integer-valued; on
    such doubles subtraction and comparison against a small constant agree
    with the integers.  [NaN] is kept because the code's behaviour on
    missing data goes through it. *)
Inductive number : Type :=
| NaN
| Num (z : Z).

(** Stored values are JSON values ([undefined] stands for an absent slot
    or property). *)
Inductive value : Type :=
| Undefined
| Null
| Bool (b : bool)
| Number (n : number)
| Str (s : string)
| Arr (elems : list value)
| Obj (fields : list (string * value)).

(** Exceptions: the class matters only for [instanceof InvalidVersionString]. *)
Inductive Exception : Type :=
| InvalidVersionString (message : string)
| Error (message : string).

Definition instanceof_InvalidVersionString (e : Exception) : bool :=
  match e with
  | InvalidVersionString _ => true
  | Error _ => false
  end.

(** [v === s] for a string literal [s]. *)
Definition strict_eq_string (v : value) (s : string) : bool :=
  match v with
  | Str s' => String.eqb s' s
  | _ => false
  end.

(** [ToBoolean]: the test of [if (v)]. *)
Definition ToBoolean (v : value) : bool :=
  match v with
  | Undefined | Null => false
  | Bool b => b
  | Number NaN => false
  | Number (Num z) => negb (z =? 0)
  | Str s => negb (String.eqb s "")
  | Arr _ | Obj _ => true
  end.

(** Own-property lookup in a JSON object (the first binding of a name is
    the property). *)
Fixpoint lookup_field (fields : list (string * value)) (name : string) : value :=
  match fields with
  | [] => Undefined
  | (k, v) :: rest => if String.eqb k name then v else lookup_field rest name
  end.

(** [v.lastNag]: read on a truthy value.  Primitives are boxed and arrays
    have only index properties and [length], so the lookup of the name
    [lastNag] on them yields [undefined]. *)
Definition get_lastNag (v : value) : value :=
  match v with
  | Obj fields => lookup_field fields "lastNag"
  | _ => Undefined
  end.

(** Own-property test in a JSON object. *)
Fixpoint has_field (fields : list (string * value)) (name : string) : bool :=
  match fields with
  | [] => false
  | (k, _) :: rest => String.eqb k name || has_field rest name
  end.

(** *** Characters of numeric text *)

(** Strings are sequences of code units below 256 (Latin-1).  White space
    and line terminators among them: TAB, LF, VT, FF, CR, SP and NBSP. *)
Definition is_white_space (c : ascii) : bool :=
  let n := Z.of_N (N_of_ascii c) in
  ((9 <=? n) && (n <=? 13)) || (n =? 32) || (n =? 160).

Fixpoint trimStart (s : string) : string :=
  match s with
  | EmptyString => EmptyString
  | String c rest => if is_white_space c then trimStart rest else s
  end.

Fixpoint trimEnd (s : string) : string :=
  match s with
  | EmptyString => EmptyString
  | String c rest =>
      match trimEnd rest with
      | EmptyString => if is_white_space c then EmptyString else String c EmptyString
      | rest' => String c rest'
      end
  end.

Definition digit_value (c : ascii) : option Z :=
  let n := Z.of_N (N_of_ascii c) in
  if (48 <=? n) && (n <=? 57) then Some (n - 48)
  else if (97 <=? n) && (n <=? 122) then Some (n - 87)
  else if (65 <=? n) && (n <=? 90) then Some (n - 55)
  else None.

(** *** [StringToNumber]: the numeric value of a string *)

(** What a string denotes as a [StringNumericLiteral]: nothing (the
    coercion gives [NaN]), an integer, or a value that is not an integer
    (a fraction, [Infinity]). *)
Inductive NumericValue : Type :=
| NotNumeric
| IntegerValue (z : Z)
| OtherValue.

(** The longest prefix of radix-[R] digits, and what follows it. *)
Fixpoint take_digits (R : Z) (s : string) : list Z * string :=
  match s with
  | EmptyString => ([], EmptyString)
  | String c rest =>
      match digit_value c with
      | Some d =>
          if d <? R
          then let '(ds, s') := take_digits R rest in (d :: ds, s')
          else ([], s)
      | None => ([], s)
      end
  end.

Definition digits_value (R : Z) (ds : list Z) : Z :=
  fold_left (fun acc d => R * acc + d) ds 0.

(** [0x], [0o] and [0b] literals: one digit at least, and nothing after
    the digits. *)
Definition NonDecimalIntegerLiteral (R : Z) (s : string) : NumericValue :=
  match take_digits R s with
  | ((_ :: _) as ds, EmptyString) => IntegerValue (digits_value R ds)
  | _ => NotNumeric
  end.

(** [ExponentPart], optional: the exponent, or [None] when what follows
    the mantissa is not an exponent part. *)
Definition ExponentPart (s : string) : option Z :=
  match s with
  | EmptyString => Some 0
  | String c rest =>
      if Ascii.eqb c "e" || Ascii.eqb c "E" then
        let '(sign, s1) :=
          match rest with
          | String "-" r => (-1, r)
          | String "+" r => (1, r)
          | _ => (1, rest)
          end in
        match take_digits 10 s1 with
        | ((_ :: _) as ds, EmptyString) => Some (sign * digits_value 10 ds)
        | _ => None
        end
      else None
  end.

(** [m * 10 ^ k], when that is an integer. *)
Definition scaled (m k : Z) : NumericValue :=
  if 0 <=? k then IntegerValue (m * 10 ^ k)
  else if m mod 10 ^ (- k) =? 0 then IntegerValue (m / 10 ^ (- k))
  else OtherValue.

(** [StrUnsignedDecimalLiteral]: [Infinity], or digits with an optional
    fraction and an optional exponent; a digit is required before or after
    the point. *)
Definition StrUnsignedDecimalLiteral (s : string) : NumericValue :=
  if String.eqb s "Infinity" then OtherValue
  else
    let '(int_digits, s1) := take_digits 10 s in
    let '(frac_digits, s2) :=
      match s1 with
      | String "." r => take_digits 10 r
      | _ => ([], s1)
      end in
    match int_digits, frac_digits with
    | [], [] => NotNumeric
    | _, _ =>
        match ExponentPart s2 with
        | None => NotNumeric
        | Some e =>
            scaled (digits_value 10 (int_digits ++ frac_digits))
                   (e - Z.of_nat (length frac_digits))
        end
    end.

Definition negate (v : NumericValue) : NumericValue :=
  match v with
  | IntegerValue z => IntegerValue (- z)
  | _ => v
  end.

Definition StrDecimalLiteral (s : string) : NumericValue :=
  match s with
  | String "-" rest => negate (StrUnsignedDecimalLiteral rest)
  | String "+" rest => StrUnsignedDecimalLiteral rest
  | _ => StrUnsignedDecimalLiteral s
  end.

(** A sign is not part of the non-decimal literals. *)
Definition StrNumericLiteral (s : string) : NumericValue :=
  match s with
  | String "0" (String c rest) =>
      if Ascii.eqb c "x" || Ascii.eqb c "X" then NonDecimalIntegerLiteral 16 rest
      else if Ascii.eqb c "o" || Ascii.eqb c "O" then NonDecimalIntegerLiteral 8 rest
      else if Ascii.eqb c "b" || Ascii.eqb c "B" then NonDecimalIntegerLiteral 2 rest
      else StrDecimalLiteral s
  | _ => StrDecimalLiteral s
  end.

(** White space around the literal is dropped; the empty string and a
    string of white space denote [0]. *)
Definition StringToNumber (s : string) : NumericValue :=
  match trimEnd (trimStart s) with
  | EmptyString => IntegerValue 0
  | text => StrNumericLiteral text
  end.

(** [ToNumber], as applied by the binary [-].  Primitives: [undefined] is
    [NaN], [null] is [0], booleans are [0] and [1], a string is [NaN] when
    it is not a numeric literal and its value when that is an integer (a
    literal beyond the range of doubles, which the engine reads as an
    infinity, keeps its integer value here: the comparison of the gate
    comes out the same).  A JSON object has no callable [valueOf] or
    [toString] of its own, so it converts through [Object.prototype.toString]
    to ["[object Object]"], which is [NaN], unless an own [toString]
    property hides that method.  What is left is not modelled: strings that
    denote fractions or [Infinity], arrays, and objects with an own
    [toString]: [None], and what the engine makes of them is left to the
    host (see [engine_less_than] below). *)
Definition ToNumber (v : value) : option number :=
  match v with
  | Undefined => Some NaN
  | Null => Some (Num 0)
  | Bool b => Some (Num (if b then 1 else 0))
  | Number n => Some n
  | Str s =>
      match StringToNumber s with
      | NotNumeric => Some NaN
      | IntegerValue z => Some (Num z)
      | OtherValue => None
      end
  | Arr _ => None
  | Obj fields => if has_field fields "toString" then None else Some NaN
  end.

(** [a - b] and [a < b] on numbers. *)
Definition sub (a b : number) : number :=
  match a, b with
  | Num x, Num y => Num (x - y)
  | _, _ => NaN
  end.

Definition lt (a b : number) : bool :=
  match a, b with
  | Num x, Num y => x <? y
  | _, _ => false
  end.

(** [a !== 0] on a number: [NaN !== 0] is true. *)
Definition strict_neq_zero (a : number) : bool :=
  match a with
  | NaN => true
  | Num z => negb (z =? 0)
  end.

(** *** [parseInt(s)] without a radix argument *)

(** Value of the longest prefix of radix-[R] digits; [acc] is [None] until
    a first digit has been read. *)
Fixpoint parse_digits (R : Z) (s : string) (acc : option Z) : option Z :=
  match s with
  | EmptyString => acc
  | String c rest =>
      match digit_value c with
      | Some d =>
          if d <? R
          then parse_digits R rest (Some (R * default 0 acc + d))
          else acc
      | None => acc
      end
  end.

Definition parseInt (s : string) : number :=
  let s1 := trimStart s in
  let '(sign, s2) :=
    match s1 with
    | String "-" rest => (-1, rest)
    | String "+" rest => (1, rest)
    | _ => (1, s1)
    end in
  let '(R, s3) :=
    match s2 with
    | String "0" (String "x" rest) => (16, rest)
    | String "0" (String "X" rest) => (16, rest)
    | _ => (10, s2)
    end in
  match parse_digits R s3 None with
  | None => NaN
  | Some m => Num (sign * m)
  end.

(** [x.toFixed(0)] for a non-negative finite [x]: the nearest integer, the
    larger one on a tie, in decimal. *)
Definition toFixed0 (x : Q) : string :=
  pretty (Qfloor (x + (1 # 2))).

End JS.

Import JS.

(* ===================================================================== *)
(** ** The host: what the editor, Node and the user answer *)
(* ===================================================================== *)

(** Modelled from the spec: the [Version] type of [@cmt/util] is not part of
    this module; section 3 describes it as an ordered sequence of
    non-negative integer components.  It is only passed through to
    [versionLess] and [versionToString]. *)
Definition Version : Type := list N.

(** The fields of [LatestCMakeInfo] ([@cmt/nag]) that this module reads. *)
Record LatestCMakeInfo : Type := {
  version : string;
  linuxURL : string;
}.

Record UpgradeOptions : Type := {
  currentVersion : Version;
  available : LatestCMakeInfo;
}.

(** The user's reply to a notification: the chosen item ([None] when the
    notification is dismissed) and how long the reply took. *)
Record Reply : Type := {
  chosen_item : option string;
  after_ms : Z;
}.

(** The cancellation token that [withProgress] hands to its task; it fires
    once that many data chunks have been delivered, if ever. *)
Record CancellationToken : Type := {
  signalled_after_chunks : option nat;
}.

(** What [https.get] does with a request: it throws, the request emits
    ['error'], or a response arrives with its status, its [content-length]
    header and a body delivered as ['data'] chunks (only their [length] is
    observed) followed by ['end']. *)
Inductive HttpExchange : Type :=
| GetThrows (e : Exception)
| RequestError (e : Exception)
| Response (statusCode : Z) (content_length : option string) (body : list nat).

(** [proc.result] of [@cmt/proc]. *)
Record ExecutionResult : Type := {
  retc : Z;
  stderr : string;
}.

(** What the environment answers.  [engine_less_than h x t window] is what
    the JavaScript engine makes of [t - x < window] for a value [x] whose
    numeric coercion [JS.ToNumber] does not model: the truth
    value, or the exception of a conversion that fails.  It is consulted for
    such values only. *)
Record Host : Type := {
  platform : string;                                  (* process.platform *)
  engine_less_than : value -> Z -> Z -> Exception + bool;
  versionLess : Version -> string -> Exception + bool;       (* @cmt/util *)
  versionToString : Version -> string;                       (* @cmt/util *)
  showInformationMessage_reply : string -> list string -> Reply;
  which : string -> option string;                          (* paths.which *)
  basename : string -> string -> string;                  (* path.basename *)
  tmp_file : string -> string -> Exception + string; (* tmp.file: err | path *)
  https_get : string -> HttpExchange;
  progress_token : CancellationToken;
  execute : string -> list string -> ExecutionResult;
}.

(** Host-visible effects, in the order they happen. *)
Inductive Event : Type :=
| ShowInformationMessage (message : string) (items : list string)
| ShowErrorMessage (message : string)
| WithProgress (title : string)
| ProgressReport (increment : Q) (message : string)
| LogInfo (message : string)
| LogError (message : string) (detail : string)
| RollbarException (what : string) (e : Exception)
| GlobalStateUpdate (key : string) (v : value)
| VersionLess (lhs : Version) (rhs : string)
| Execute (command : string) (args : list string)
| ExecuteCommand (command : string)
| ConsoleAssertFailed.

Record World : Type := {
  globalState : gmap string value;     (* ext.globalState *)
  files : gset string;                 (* paths present on disk *)
  now : Z;                             (* new Date().getTime() *)
  trace : list Event;
}.

(* ===================================================================== *)
(** ** The monad of asynchronous host code *)
(* ===================================================================== *)

(** A call settles normally (the promise resolves) or with an exception
    (the promise rejects). *)
Inductive Result (A : Type) : Type :=
| Normal (a : A) (w : World)
| Throw (e : Exception) (w : World).
Arguments Normal {A} a w.
Arguments Throw {A} e w.

Definition M (A : Type) : Type := World -> Result A.

Definition ret {A} (a : A) : M A := fun w => Normal a w.

Definition bind {A B} (m : M A) (f : A -> M B) : M B :=
  fun w =>
    match m w with
    | Normal a w' => f a w'
    | Throw e w' => Throw e w'
    end.

Definition throw {A} (e : Exception) : M A := fun w => Throw e w.

Definition try_catch {A} (m : M A) (handler : Exception -> M A) : M A :=
  fun w =>
    match m w with
    | Throw e w' => handler e w'
    | r => r
    end.

Declare Scope js_scope.
Delimit Scope js_scope with js.
Notation "x <- m ;; k" := (bind m (fun x => k))
  (at level 100, m at next level, right associativity) : js_scope.
Notation "m ;; k" := (bind m (fun _ => k))
  (at level 100, right associativity) : js_scope.
Local Open Scope js_scope.

(** Elementary changes of the world. *)
Definition add_event (ev : Event) (w : World) : World :=
  {| globalState := globalState w; files := files w; now := now w;
     trace := trace w ++ [ev] |}.

Definition advance (ms : Z) (w : World) : World :=
  {| globalState := globalState w; files := files w; now := now w + ms;
     trace := trace w |}.

Definition add_file (path : string) (w : World) : World :=
  {| globalState := globalState w; files := {[ path ]} ∪ files w;
     now := now w; trace := trace w |}.

Definition store (key : string) (v : value) (w : World) : World :=
  {| globalState := <[ key := v ]> (globalState w); files := files w;
     now := now w; trace := trace w |}.

Definition emit (ev : Event) : M unit := fun w => Normal tt (add_event ev w).

Definition Date_getTime : M Z := fun w => Normal (now w) w.

Definition elapse (ms : Z) : M unit := fun w => Normal tt (advance ms w).

Definition create_file (path : string) : M unit :=
  fun w => Normal tt (add_file path w).

(** [ext.globalState.get(key)] and [ext.globalState.update(key, value)]. *)
Definition globalState_get (key : string) : M value :=
  fun w => Normal (default Undefined (globalState w !! key)) w.

Definition globalState_update (key : string) (v : value) : M unit :=
  emit (GlobalStateUpdate key v) ;;
  fun w => Normal tt (store key v w).

(** [vscode.window.showInformationMessage(message, ...items)], awaited. *)
Definition showInformationMessage (h : Host) (message : string)
    (items : list string) : M (option string) :=
  emit (ShowInformationMessage message items) ;;
  let r := showInformationMessage_reply h message items in
  elapse (after_ms r) ;;
  ret (chosen_item r).

Definition showErrorMessage (message : string) : M unit :=
  emit (ShowErrorMessage message).

(** The progress handle: [pr.report({increment, message})]. *)
Record ProgressHandle : Type := {
  report : Q -> string -> M unit;
}.

(** [vscode.window.withProgress({location, title}, task)]: the task is
    called with the progress handle and the cancellation token. *)
Definition withProgress {A} (h : Host) (title : string)
    (task : ProgressHandle -> CancellationToken -> M A) : M A :=
  emit (WithProgress title) ;;
  task {| report := fun increment message =>
                      emit (ProgressReport increment message) |}
       (progress_token h).

(* ===================================================================== *)
(** ** The module [cm-upgrade.ts] *)
(* ===================================================================== *)

Definition UPGRADE_PREFERENCE_KEY : string := "cmakeUpgradePreference.1".

(** [UpgradeDelay]: the object [{lastNag: t}]. *)
Definition UpgradeDelay (lastNag : Z) : value :=
  Obj [("lastNag", Number (Num lastNag))].

(** The declared return type is ['never'|UpgradeDelay|undefined], but the
    stored value is returned as it is. *)
Definition upgradePreference : M value :=
  globalState_get UPGRADE_PREFERENCE_KEY.

Definition setUpgradePreference (v : value) : M unit :=
  globalState_update UPGRADE_PREFERENCE_KEY v.

(** *** [downloadFile] *)

(** The two counters of the ['data'] handler. *)
Record Counters : Type := {
  prevDownloaded : Z;
  totalDownloaded : Z;
}.

(** [100 * x / totalSize]: [NaN] ([None]) when [totalSize] is.  It is only
    evaluated under [totalSize !== 0].  The quotient is kept as the exact
    rational where the runtime has the nearest double.  For byte counts
    below 2^53 comparing it with 1 gives what comparing the double does,
    and that comparison is what the statements about the download rest
    on.  The increment carried by a report stands for the double nearest
    to it; no statement does arithmetic on increments. *)
Definition percent (x : Z) (totalSize : number) : option Q :=
  match totalSize with
  | NaN => None
  | Num size => Some (Qred (inject_Z (100 * x) / inject_Z size))
  end.

(** [p > 1]; false on [NaN]. *)
Definition exceeds_one (p : option Q) : bool :=
  match p with
  | None => false
  | Some q => negb (Qle_bool q 1)
  end.

(** [res.on('data', data => ...)] for one chunk of [data.length] bytes. *)
Definition on_data (pr : ProgressHandle) (totalSize : number)
    (st : Counters) (data_length : nat) : M Counters :=
  let downloaded := totalDownloaded st + Z.of_nat data_length in
  let unreported :=
    {| prevDownloaded := prevDownloaded st; totalDownloaded := downloaded |} in
  if strict_neq_zero totalSize then
    let diffPercent := percent (downloaded - prevDownloaded st) totalSize in
    let totalPercent := percent downloaded totalSize in
    if exceeds_one diffPercent then
      match diffPercent, totalPercent with
      | Some increment, Some total =>
          report pr increment (toFixed0 total ++ "%") ;;
          ret {| prevDownloaded := downloaded; totalDownloaded := downloaded |}
      | _, _ => ret unreported
      end
    else ret unreported
  else ret unreported.

Fixpoint on_body (pr : ProgressHandle) (totalSize : number)
    (st : Counters) (body : list nat) : M Counters :=
  match body with
  | [] => ret st
  | data_length :: rest =>
      st' <- on_data pr totalSize st data_length ;;
      on_body pr totalSize st' rest
  end.

(** [res.headers['content-length'] || '0'] *)
Definition content_length_or_zero (header : option string) : string :=
  match header with
  | Some s => if String.eqb s "" then "0" else s
  | None => "0"
  end.

(** The promise of [downloadFile]: [resolve] is [ret], [reject] is [throw].
    The temporary file exists from [tmp.file] on; the response is piped
    into it and nothing in the function removes it. *)
Definition downloadFile (h : Host) (url : string) (prefix postfix : string)
    (pr : ProgressHandle) : M string :=
  match tmp_file h prefix postfix with
  | inl err => throw err
  | inr fpath =>
      create_file fpath ;;
      match https_get h url with
      | GetThrows e => throw e
      | RequestError e => throw e
      | Response statusCode content_length body =>
          if negb (statusCode =? 200) then
            throw (Error "Non-200 response when downloading new CMake installer")
          else
            let totalSize := parseInt (content_length_or_zero content_length) in
            on_body pr totalSize
              {| prevDownloaded := 0; totalDownloaded := 0 |} body ;;
            emit (LogInfo ("Downloaded " ++ url ++ " to " ++ fpath)) ;;
            ret fpath
      end
  end.

(** *** [installLinux] *)

Definition exec (h : Host) (command : string) (args : list string)
    : M ExecutionResult :=
  emit (Execute command args) ;;
  ret (execute h command args).

Definition installLinux (h : Host) (url : string) : M unit :=
  match which h "pkexec" with
  | None =>
      showErrorMessage
        "CMake Tools needs `pkexec` program to run the CMake installer"
  | Some pkexec =>
      if String.eqb pkexec "" then
        showErrorMessage
          "CMake Tools needs `pkexec` program to run the CMake installer"
      else
        let filename := basename h url ".sh" in
        installerPath <-
          withProgress h ("Downloading " ++ filename)
            (fun pr _ => downloadFile h url filename ".sh" pr) ;;
        res <-
          withProgress h "Running CMake Installer"
            (fun _ _ =>
               exec h pkexec
                 [installerPath; "--exclude-subdir"; "--prefix=/usr/local"]) ;;
        if retc res =? 127 then
          showErrorMessage
            "Failed to authorize for running the CMake installation."
        else if retc res =? 126 then
          showErrorMessage
            "You dismissed the request for permission to perform the CMake installation."
        else if negb (retc res =? 0) then
          emit (LogError
                  ("The CMake installer returned non-zero [" ++ pretty (retc res) ++ "]: ")
                  (stderr res)) ;;
          showErrorMessage
            "The CMake installer exited with non-zero. Check the output panel for more information"
        else
          let restartNow := "Restart Now" in
          chosen <-
            showInformationMessage h
              "The new CMake is successfull installed to /usr/local/bin/cmake. Reload VSCode to complete changes."
              [restartNow] ;;
          match chosen with
          | Some c =>
              if String.eqb c restartNow
              then emit (ExecuteCommand "workbench.action.reloadWindow")
              else ret tt
          | None => ret tt
          end
  end.

(** *** [maybeUpgradeCMake] *)

Definition doTheUpgrade : string := "Yes".
Definition askMeLater : string := "Ask me Later".
Definition dontAskAgain : string := "Don't Ask Me Again".

(** [1000 * 60 * 60 * 48] *)
Definition nag_window : Z := 1000 * 60 * 60 * 48.

Definition upgrade_message (h : Host) (opt : UpgradeOptions) : string :=
  "There is a new version of CMake available. You are running "
  ++ versionToString h (currentVersion opt) ++ ", "
  ++ "and " ++ version (available opt) ++ " is available. "
  ++ "Would you like CMake Tools to download and install this update automatically?".

(** [new Date().getTime() - pref.lastNag < 1000 * 60 * 60 * 48] *)
Definition nagged_recently (h : Host) (pref : value) : M bool :=
  t <- Date_getTime ;;
  match ToNumber (get_lastNag pref) with
  | Some lastNag =>
      let timeSinceNag := sub (Num t) lastNag in
      ret (lt timeSinceNag (Num nag_window))
  | None =>
      match engine_less_than h (get_lastNag pref) t nag_window with
      | inl e => throw e
      | inr b => ret b
      end
  end.

(** [versionLess(opt.currentVersion, opt.available.version)] *)
Definition call_versionLess (h : Host) (opt : UpgradeOptions) : M bool :=
  emit (VersionLess (currentVersion opt) (version (available opt))) ;;
  match versionLess h (currentVersion opt) (version (available opt)) with
  | inl e => throw e
  | inr b => ret b
  end.

(** Lines 167-205: the prompt and what follows the user's choice. *)
Definition prompt_and_upgrade (h : Host) (opt : UpgradeOptions) : M value :=
  chosen <-
    showInformationMessage h (upgrade_message h opt)
      [doTheUpgrade; askMeLater; dontAskAgain] ;;
  match chosen with
  | None => ret Undefined
  | Some c =>
      if String.eqb c dontAskAgain then
        setUpgradePreference (Str "never") ;;
        ret Undefined
      else if String.eqb c askMeLater then
        t <- Date_getTime ;;
        setUpgradePreference (UpgradeDelay t) ;;
        ret Undefined
      else
        (if String.eqb c doTheUpgrade then ret tt
         else emit ConsoleAssertFailed) ;;
        if String.eqb (platform h) "linux" then
          installLinux h (linuxURL (available opt)) ;;
          ret Undefined
        else ret Undefined
  end.

(** Lines 152-165: the version comparison inside [try]/[catch]; [None]
    stands for the [return null] of the handler. *)
Definition check_for_upgrade (h : Host) (opt : UpgradeOptions) : M value :=
  upgradeAvailable <-
    try_catch
      (b <- call_versionLess h opt ;; ret (Some b))
      (fun e =>
         (if negb (instanceof_InvalidVersionString e) then
            emit (RollbarException
                    "Error comparing CMake versions for potential upgrade" e)
          else ret tt) ;;
         ret None) ;;
  match upgradeAvailable with
  | None => ret Null
  | Some false => ret Undefined
  | Some true => prompt_and_upgrade h opt
  end.

Definition maybeUpgradeCMake (h : Host) (opt : UpgradeOptions) : M value :=
  if negb (String.eqb (platform h) "linux") then ret Undefined
  else
    pref <- upgradePreference ;;
    if strict_eq_string pref "never" then ret Undefined
    else
      wait <- (if ToBoolean pref then nagged_recently h pref else ret false) ;;
      if wait then ret Undefined
      else check_for_upgrade h opt.

(* ===================================================================== *)
(** ** Vocabulary of the statements *)
(* ===================================================================== *)

(** The stored preference as [upgradePreference] reads it. *)
Definition stored_preference (w : World) : value :=
  default Undefined (globalState w !! UPGRADE_PREFERENCE_KEY).

(** The world with the preference slot emptied. *)
Definition forget_preference (w : World) : World :=
  {| globalState := delete UPGRADE_PREFERENCE_KEY (globalState w);
     files := files w; now := now w; trace := trace w |}.

(** The world with [v] in the preference slot. *)
Definition with_preference (v : value) (w : World) : World :=
  store UPGRADE_PREFERENCE_KEY v w.

(** The values without a [lastNag] property: primitives, arrays, and
    objects that do not have it. *)
Definition lacks_lastNag (v : value) : bool :=
  match v with
  | Obj fields => negb (has_field fields "lastNag")
  | _ => true
  end.

Definition add_events (evs : list Event) (w : World) : World :=
  {| globalState := globalState w; files := files w; now := now w;
     trace := trace w ++ evs |}.

(** The events that [w'] has on top of the trace of [w], and the events a
    run has added to the world it started in. *)
Definition added (w w' : World) : list Event :=
  drop (length (trace w)) (trace w').

Definition new_events {A} (w : World) (r : Result A) : list Event :=
  match r with
  | Normal _ w' => added w w'
  | Throw _ w' => added w w'
  end.

Definition is_update (ev : Event) : bool :=
  match ev with
  | GlobalStateUpdate _ _ => true
  | _ => false
  end.

Definition is_check_or_prompt (ev : Event) : bool :=
  match ev with
  | VersionLess _ _ => true
  | ShowInformationMessage _ _ => true
  | _ => false
  end.

(** *** Relations between the world before and after a computation *)

(** [m] settles (normally or not) in a world related to the one it
    started in. *)
Definition respects (R : World -> World -> Prop) {A} (m : M A) : Prop :=
  forall w,
    match m w with
    | Normal _ w' => R w w'
    | Throw _ w' => R w w'
    end.

(** The trace only grows. *)
Definition extends (w w' : World) : Prop :=
  exists evs, trace w' = (trace w ++ evs)%list.

(** The persisted state is untouched and no update was issued. *)
Definition frame (w w' : World) : Prop :=
  globalState w' = globalState w /\
  exists evs, trace w' = (trace w ++ evs)%list /\ Forall (fun ev => is_update ev = false) evs.

(** No file disappears. *)
Definition keeps_files (w w' : World) : Prop :=
  files w ⊆ files w'.

(** Two worlds that agree on everything but the preference slot. *)
Definition alike (w1 w2 : World) : Prop :=
  files w1 = files w2 /\ now w1 = now w2 /\ trace w1 = trace w2 /\
  delete UPGRADE_PREFERENCE_KEY (globalState w1)
    = delete UPGRADE_PREFERENCE_KEY (globalState w2).

(** Two runs that settle the same way, in worlds that are alike. *)
Definition same_run {A} (r1 r2 : Result A) : Prop :=
  match r1, r2 with
  | Normal a1 w1, Normal a2 w2 => a1 = a2 /\ alike w1 w2
  | Throw e1 w1, Throw e2 w2 => e1 = e2 /\ alike w1 w2
  | _, _ => False
  end.

(** [m] does not look at the preference slot. *)
Definition oblivious {A} (m : M A) : Prop :=
  forall w1 w2, alike w1 w2 -> same_run (m w1) (m w2).

(** *** The workflow *)

(** The stored value lets the run through to the version comparison. *)
Definition passes_gate (w : World) : Prop :=
  let pref := stored_preference w in
  strict_eq_string pref "never" = false /\
  (ToBoolean pref = false \/
   exists lastNag,
     ToNumber (get_lastNag pref) = Some lastNag /\
     lt (sub (Num (now w)) lastNag) (Num nag_window) = false).

Definition compared (opt : UpgradeOptions) : Event :=
  VersionLess (currentVersion opt) (version (available opt)).

Definition reported (e : Exception) : Event :=
  RollbarException "Error comparing CMake versions for potential upgrade" e.

Definition upgrade_items : list string := [doTheUpgrade; askMeLater; dontAskAgain].

(** The user's answer to the upgrade prompt. *)
Definition upgrade_reply (h : Host) (opt : UpgradeOptions) : Reply :=
  showInformationMessage_reply h (upgrade_message h opt) upgrade_items.

(** The world once the user has answered the upgrade prompt. *)
Definition answered (h : Host) (opt : UpgradeOptions) (w : World) : World :=
  advance (after_ms (upgrade_reply h opt))
    (add_event (ShowInformationMessage (upgrade_message h opt) upgrade_items) w).

(** The world once [setUpgradePreference v] has run. *)
Definition written (v : value) (w : World) : World :=
  store UPGRADE_PREFERENCE_KEY v
    (add_event (GlobalStateUpdate UPGRADE_PREFERENCE_KEY v) w).

(** What a call may do to the stored preference: either nothing is written,
    or the user's answer to the upgrade prompt was "Ask me Later" and the
    one write is [{lastNag: now}] (the time of the answer), or it was
    "Don't Ask Me Again" and the one write is ['never']. *)
Definition preference_outcome (reply : Reply) (w w' : World) : Prop :=
  exists evs,
    trace w' = (trace w ++ evs)%list /\
    ((globalState w' = globalState w /\ List.filter is_update evs = [])
     \/ (chosen_item reply = Some askMeLater /\
         let lastNag := now w + after_ms reply in
         globalState w' =
           <[ UPGRADE_PREFERENCE_KEY := UpgradeDelay lastNag ]> (globalState w) /\
         List.filter is_update evs =
           [GlobalStateUpdate UPGRADE_PREFERENCE_KEY (UpgradeDelay lastNag)])
     \/ (chosen_item reply = Some dontAskAgain /\
         globalState w' =
           <[ UPGRADE_PREFERENCE_KEY := Str "never" ]> (globalState w) /\
         List.filter is_update evs =
           [GlobalStateUpdate UPGRADE_PREFERENCE_KEY (Str "never")])).

(** The caller polls: [maybeUpgradeCMake] is invoked again and again, each
    time against another state of the host and after some time has passed;
    the world is threaded through. *)
Fixpoint polls (calls : list (Host * UpgradeOptions * Z)) (w : World) : World :=
  match calls with
  | [] => w
  | (h, opt, pause) :: rest =>
      match maybeUpgradeCMake h opt (advance pause w) with
      | Normal _ w' => polls rest w'
      | Throw _ w' => polls rest w'
      end
  end.

(** Time that passes over a series of polls. *)
Definition total_pause (calls : list (Host * UpgradeOptions * Z)) : Z :=
  fold_right (fun call acc => snd call + acc) 0 calls.

(** *** The download *)

(** The progress handle that [withProgress] passes to its task. *)
Definition host_progress : ProgressHandle :=
  {| report := fun increment message => emit (ProgressReport increment message) |}.

(** The download step of [installLinux] (lines 96-103). *)
Definition download_task (h : Host) (url : string) : M string :=
  let filename := basename h url ".sh" in
  withProgress h ("Downloading " ++ filename)
    (fun pr _ => downloadFile h url filename ".sh" pr).

(** The same host with another cancellation token. *)
Definition with_token (h : Host) (tok : CancellationToken) : Host :=
  {| platform := platform h;
     engine_less_than := engine_less_than h;
     versionLess := versionLess h;
     versionToString := versionToString h;
     showInformationMessage_reply := showInformationMessage_reply h;
     which := which h;
     basename := basename h;
     tmp_file := tmp_file h;
     https_get := https_get h;
     progress_token := tok;
     execute := execute h |}.

(** Bytes in a body, and bytes in a series of reported deltas. *)
Definition received (body : list nat) : Z :=
  fold_right (fun data_length acc => Z.of_nat data_length + acc) 0 body.

Definition total_of (deltas : list Z) : Z := fold_right Z.add 0 deltas.

(** The reports for a series of reported byte deltas, the first one made
    when [reported] bytes had been reported already: the increment is the
    delta as a percentage of [size], the message the rounded percentage of
    all bytes reported so far. *)
Fixpoint report_events (size reported : Z) (deltas : list Z) : list Event :=
  match deltas with
  | [] => []
  | delta :: rest =>
      ProgressReport
        (Qred (inject_Z (100 * delta) / inject_Z size))
        (toFixed0 (Qred (inject_Z (100 * (reported + delta)) / inject_Z size)) ++ "%")
      :: report_events size (reported + delta) rest
  end.

Definition downloaded_message (url fpath : string) : Event :=
  LogInfo ("Downloaded " ++ url ++ " to " ++ fpath).

(* ===================================================================== *)
(** ** Sample hosts and worlds *)
(* ===================================================================== *)

(** A Linux host with [pkexec] installed; the arguments fix the outcome of
    the version comparison, the user's reply to every notification, the
    HTTP exchange and the installer's exit code. *)
Definition linux_host (less : Exception + bool) (reply : Reply) (exchange : HttpExchange)
    (code : Z) : Host :=
  {| platform := "linux";
     engine_less_than := fun _ _ _ => inr false;
     versionLess := fun _ _ => less;
     versionToString := fun _ => "3.10.0";
     showInformationMessage_reply := fun _ _ => reply;
     which := fun _ => Some "/usr/bin/pkexec";
     basename := fun _ _ => "cmake-3.19.2-Linux-x86_64";
     tmp_file := fun _ _ => inr "/tmp/cmake-3.19.2-Linux-x86_64.sh";
     https_get := fun _ => exchange;
     progress_token := {| signalled_after_chunks := None |};
     execute := fun _ _ => {| retc := code; stderr := "" |} |}.

Definition sample_options : UpgradeOptions :=
  {| currentVersion := [3; 10; 0]%N;
     available :=
       {| version := "3.19.2";
          linuxURL := "https://cmake.org/files/v3.19/cmake-3.19.2-Linux-x86_64.sh" |} |}.

(** A fresh world at a given time, with the given stored preference. *)
Definition world_at (time : Z) (pref : option value) : World :=
  {| globalState :=
       match pref with
       | Some v => {[ UPGRADE_PREFERENCE_KEY := v ]}
       | None => ∅
       end;
     files := ∅; now := time; trace := [] |}.

(** The user dismisses the prompt. *)
Definition dismissing_host : Host :=
  linux_host (inr true) {| chosen_item := None; after_ms := 0 |}
    (Response 200 (Some "100") [100%nat]) 0.

(** The user answers "Ask me Later" after five seconds. *)
Definition deferring_host : Host :=
  linux_host (inr true) {| chosen_item := Some askMeLater; after_ms := 5000 |}
    (Response 200 (Some "100") [100%nat]) 0.

(** The advertised version does not parse. *)
Definition unparsable_host : Host :=
  linux_host (inl (InvalidVersionString "Invalid version string 3.19.x"))
    {| chosen_item := Some doTheUpgrade; after_ms := 0 |}
    (Response 200 (Some "100") [100%nat]) 0.

Definition unparsable_options : UpgradeOptions :=
  {| currentVersion := [3; 10; 0]%N;
     available :=
       {| version := "3.19.x";
          linuxURL := "https://cmake.org/files/v3.19/cmake-3.19.x-Linux-x86_64.sh" |} |}.

(** A 1000-byte installer that arrives as 990 bytes and then 10 bytes. *)
Definition short_last_chunk_host : Host :=
  linux_host (inr true) {| chosen_item := Some doTheUpgrade; after_ms := 0 |}
    (Response 200 (Some "1000") [990%nat; 10%nat]) 0.

(** A 100-unit installer delivered in ten chunks of 10. *)
Definition ten_chunks_host : Host :=
  linux_host (inr true) {| chosen_item := Some doTheUpgrade; after_ms := 0 |}
    (Response 200 (Some "100") (repeat 10%nat 10)) 0.

(** A response whose [content-length] is not a number. *)
Definition chunked_host : Host :=
  linux_host (inr true) {| chosen_item := Some doTheUpgrade; after_ms := 0 |}
    (Response 200 (Some "chunked") [40%nat; 30%nat; 30%nat]) 0.

(** The cancellation token fires after the first of three chunks. *)
Definition cancelled_host : Host :=
  with_token
    (linux_host (inr true) {| chosen_item := Some doTheUpgrade; after_ms := 0 |}
       (Response 200 (Some "100") [40%nat; 30%nat; 30%nat]) 0)
    {| signalled_after_chunks := Some 1%nat |}.

(** The user dismisses the authorization request of [pkexec]. *)
Definition declining_host : Host :=
  linux_host (inr true) {| chosen_item := Some doTheUpgrade; after_ms := 0 |}
    (Response 200 (Some "100") [100%nat]) 126.

(** The world of [declining_host] once the installer is downloaded. *)
Definition downloaded_world : World :=
  add_events
    [WithProgress "Downloading cmake-3.19.2-Linux-x86_64";
     ProgressReport 100 "100%";
     LogInfo "Downloaded https://cmake.org/files/cmake.sh to /tmp/cmake-3.19.2-Linux-x86_64.sh"]
    (add_file "/tmp/cmake-3.19.2-Linux-x86_64.sh" (world_at 1700000000000 None)).

(** A stored object whose [lastNag] is a string of digits. *)
Definition corrupt_preference : value := Obj [("lastNag", Str "4102444800000")].



(* ===================================================================== *)
(** ** Vocabulary of the further properties *)
(* ===================================================================== *)

Definition is_progress_report (ev : Event) : bool :=
  match ev with
  | ProgressReport _ _ => true
  | _ => false
  end.

(** The effects that the download step can have. *)
Definition is_download_event (ev : Event) : bool :=
  match ev with
  | WithProgress _ => true
  | ProgressReport _ _ => true
  | LogInfo _ => true
  | _ => false
  end.

(** The arguments [installLinux] passes to [pkexec] (line 110). *)
Definition installer_args (installerPath : string) : list string :=
  [installerPath; "--exclude-subdir"; "--prefix=/usr/local"].

(** The notification of line 93. *)
Definition pkexec_missing : Event :=
  ShowErrorMessage "CMake Tools needs `pkexec` program to run the CMake installer".

(** The notification of lines 124-127 and the user's answer to it. *)
Definition success_message : string :=
  "The new CMake is successfull installed to /usr/local/bin/cmake. Reload VSCode to complete changes.".

Definition restart_reply (h : Host) : Reply :=
  showInformationMessage_reply h success_message ["Restart Now"].

(** [paths.which('pkexec')] found a program ([!pkexec] is false). *)
Definition pkexec_found (h : Host) (pkexec : string) : Prop :=
  which h "pkexec" = Some pkexec /\ pkexec <> "".

(** The world in which [installLinux] starts once the user has answered the
    upgrade prompt with [c], an answer other than the two that are stored. *)
Definition consented (h : Host) (opt : UpgradeOptions) (c : string) (w : World) : World :=
  if String.eqb c doTheUpgrade
  then answered h opt w
  else add_event ConsoleAssertFailed (answered h opt w).

(** The effects a call can have before any consent to install: the
    comparison, the report to the error sink, the upgrade prompt and the
    update of the stored preference. *)
Definition is_eligibility_event (ev : Event) : bool :=
  match ev with
  | VersionLess _ _ => true
  | RollbarException _ _ => true
  | ShowInformationMessage _ _ => true
  | GlobalStateUpdate _ _ => true
  | _ => false
  end.

(** The upgrade prompt of lines 171-178. *)
Definition upgrade_prompt (h : Host) (opt : UpgradeOptions) : Event :=
  ShowInformationMessage (upgrade_message h opt) upgrade_items.

(** The user answered the upgrade prompt of an eligible call with [c], an
    answer that leads to the installation. *)
Definition consent (h : Host) (opt : UpgradeOptions) (c : string) : Prop :=
  platform h = "linux" /\
  versionLess h (currentVersion opt) (version (available opt)) = inr true /\
  chosen_item (upgrade_reply h opt) = Some c /\
  c <> dontAskAgain /\ c <> askMeLater.

(** The same host on another platform, or without [pkexec]. *)
Definition on_platform (h : Host) (name : string) : Host :=
  {| platform := name;
     engine_less_than := engine_less_than h;
     versionLess := versionLess h;
     versionToString := versionToString h;
     showInformationMessage_reply := showInformationMessage_reply h;
     which := which h;
     basename := basename h;
     tmp_file := tmp_file h;
     https_get := https_get h;
     progress_token := progress_token h;
     execute := execute h |}.

Definition without_pkexec (h : Host) : Host :=
  {| platform := platform h;
     engine_less_than := engine_less_than h;
     versionLess := versionLess h;
     versionToString := versionToString h;
     showInformationMessage_reply := showInformationMessage_reply h;
     which := fun _ => None;
     basename := basename h;
     tmp_file := tmp_file h;
     https_get := https_get h;
     progress_token := progress_token h;
     execute := execute h |}.

(** The user accepts the upgrade; the arguments fix the HTTP exchange and
    the installer's exit code. *)
Definition accepting_host (exchange : HttpExchange) (code : Z) : Host :=
  linux_host (inr true) {| chosen_item := Some doTheUpgrade; after_ms := 0 |}
    exchange code.

(** The server answers 404. *)
Definition not_found_host : Host := accepting_host (Response 404 None []) 0.

(** The user answers "Don't Ask Me Again". *)
Definition refusing_host : Host :=
  linux_host (inr true) {| chosen_item := Some dontAskAgain; after_ms := 2000 |}
    (Response 200 (Some "100") [100%nat]) 0.

(** The user answers every notification with "Restart Now": the upgrade
    prompt is taken as consent, the installer succeeds and the window is
    reloaded. *)
Definition restarting_host : Host :=
  linux_host (inr true) {| chosen_item := Some "Restart Now"; after_ms := 0 |}
    (Response 200 (Some "100") [100%nat]) 0.

(* ===================================================================== *)
(** ** Lemmas *)
(* ===================================================================== *)

(** *** Relations that every step of a computation maintains *)

Create HintDb respects.

Section Invariant.

Variable R : World -> World -> Prop.
Hypothesis R_refl : forall w, R w w.
Hypothesis R_trans : forall w1 w2 w3, R w1 w2 -> R w2 w3 -> R w1 w3.
Hypothesis R_event : forall ev w, is_update ev = false -> R w (add_event ev w).
Hypothesis R_advance : forall ms w, R w (advance ms w).
Hypothesis R_file : forall path w, R w (add_file path w).

Lemma respects_ret {A} (a : A) : respects R (ret a).
Proof. intros w. apply R_refl. Qed.

Lemma respects_throw {A} (e : Exception) : respects R (@throw A e).
Proof. intros w. apply R_refl. Qed.

Lemma respects_bind {A B} (m : M A) (f : A -> M B) :
  respects R m -> (forall a, respects R (f a)) -> respects R (bind m f).
Proof.
  intros Hm Hf w. unfold bind. specialize (Hm w).
  destruct (m w) as [a w1|e w1]; auto.
  specialize (Hf a w1). destruct (f a w1); eauto.
Qed.

Lemma respects_try_catch {A} (m : M A) (handler : Exception -> M A) :
  respects R m -> (forall e, respects R (handler e)) ->
  respects R (try_catch m handler).
Proof.
  intros Hm Hh w. unfold try_catch. specialize (Hm w).
  destruct (m w) as [a w1|e w1]; auto.
  specialize (Hh e w1). destruct (handler e w1); eauto.
Qed.

Lemma respects_emit ev : is_update ev = false -> respects R (emit ev).
Proof. intros Hev w. apply R_event, Hev. Qed.

Lemma respects_elapse ms : respects R (elapse ms).
Proof. intros w. apply R_advance. Qed.

Lemma respects_create_file path : respects R (create_file path).
Proof. intros w. apply R_file. Qed.

Local Hint Resolve respects_ret respects_throw respects_emit
  respects_elapse respects_create_file : respects.

Ltac step :=
  repeat first
    [ solve [ auto with respects ]
    | apply respects_bind; [ | intros ? ] ].

Lemma respects_showInformationMessage h message items :
  respects R (showInformationMessage h message items).
Proof. unfold showInformationMessage. step. Qed.

Lemma respects_showErrorMessage message : respects R (showErrorMessage message).
Proof. unfold showErrorMessage. step. Qed.

Lemma respects_report increment message :
  respects R (report host_progress increment message).
Proof. simpl. step. Qed.

Lemma respects_withProgress {A} h title
    (task : ProgressHandle -> CancellationToken -> M A) :
  (forall tok, respects R (task host_progress tok)) ->
  respects R (withProgress h title task).
Proof. intros Ht. unfold withProgress. step; apply Ht. Qed.

Lemma respects_exec h command args : respects R (exec h command args).
Proof. unfold exec. step. Qed.

Local Hint Resolve respects_showInformationMessage respects_showErrorMessage
  respects_report respects_exec : respects.

Lemma respects_on_data totalSize st data_length :
  respects R (on_data host_progress totalSize st data_length).
Proof.
  unfold on_data.
  destruct (strict_neq_zero totalSize); [ | step ].
  destruct (exceeds_one _); [ | step ].
  destruct (percent _ totalSize); [ | step ].
  destruct (percent _ totalSize); step.
Qed.

Lemma respects_on_body totalSize body :
  forall st, respects R (on_body host_progress totalSize st body).
Proof.
  induction body as [|data_length rest IH]; intros st; simpl.
  - step.
  - apply respects_bind; [ apply respects_on_data | apply IH ].
Qed.

Lemma respects_downloadFile h url prefix postfix :
  respects R (downloadFile h url prefix postfix host_progress).
Proof.
  unfold downloadFile.
  destruct (tmp_file h prefix postfix) as [err|fpath]; [ step | ].
  apply respects_bind; [ step | intros _ ].
  destruct (https_get h url) as [e|e|statusCode content_length body];
    [ step | step | ].
  destruct (negb (statusCode =? 200)); [ step | ].
  apply respects_bind; [ apply respects_on_body | intros _ ]. step.
Qed.

Lemma respects_download_task h url : respects R (download_task h url).
Proof.
  apply respects_withProgress. intros _. apply respects_downloadFile.
Qed.

Lemma respects_installLinux h url : respects R (installLinux h url).
Proof.
  unfold installLinux.
  destruct (which h "pkexec") as [pkexec|]; [ | step ].
  destruct (String.eqb pkexec ""); [ step | ].
  apply respects_bind; [ apply respects_download_task | intros installerPath ].
  apply respects_bind;
    [ apply respects_withProgress; intros _; step | intros res ].
  destruct (retc res =? 127); [ step | ].
  destruct (retc res =? 126); [ step | ].
  destruct (negb (retc res =? 0)); [ step | ].
  apply respects_bind; [ step | intros [c|] ]; [ | step ].
  destruct (String.eqb c "Restart Now"); step.
Qed.

End Invariant.

(** *** Three such relations *)

Lemma extends_refl w : extends w w.
Proof. exists []. symmetry. apply app_nil_r. Qed.

Lemma extends_trans w1 w2 w3 : extends w1 w2 -> extends w2 w3 -> extends w1 w3.
Proof.
  intros [evs1 H1] [evs2 H2]. exists (evs1 ++ evs2)%list.
  rewrite H2, H1. symmetry. apply app_assoc.
Qed.

Lemma extends_event ev w : extends w (add_event ev w).
Proof. exists [ev]. reflexivity. Qed.

Lemma frame_refl w : frame w w.
Proof.
  split; [ reflexivity | ]. exists []. split; [ | constructor ].
  symmetry. apply app_nil_r.
Qed.

Lemma frame_trans w1 w2 w3 : frame w1 w2 -> frame w2 w3 -> frame w1 w3.
Proof.
  intros [G1 [evs1 [T1 F1]]] [G2 [evs2 [T2 F2]]]. split.
  - congruence.
  - exists (evs1 ++ evs2)%list. split.
    + rewrite T2, T1. symmetry. apply app_assoc.
    + apply Forall_app. split; assumption.
Qed.

Lemma frame_event ev w : is_update ev = false -> frame w (add_event ev w).
Proof.
  intros Hev. split; [ reflexivity | ]. exists [ev]. split; [ reflexivity | ].
  constructor; [ exact Hev | constructor ].
Qed.

Lemma frame_silent w w' :
  globalState w' = globalState w -> trace w' = trace w -> frame w w'.
Proof.
  intros G T. split; [ exact G | ]. exists []. split; [ | constructor ].
  rewrite T. symmetry. apply app_nil_r.
Qed.

Lemma frame_extends w w' : frame w w' -> extends w w'.
Proof. intros [_ [evs [T _]]]. exists evs. exact T. Qed.

Lemma keeps_files_trans w1 w2 w3 :
  keeps_files w1 w2 -> keeps_files w2 w3 -> keeps_files w1 w3.
Proof. unfold keeps_files. intros H12 H23. etransitivity; eassumption. Qed.

Lemma keeps_files_add path w : keeps_files w (add_file path w).
Proof. unfold keeps_files. simpl. apply union_subseteq_r. Qed.

(** [installLinux] never touches the stored preference, whatever the host
    answers. *)
Lemma installLinux_frame h url : respects frame (installLinux h url).
Proof.
  apply respects_installLinux.
  - apply frame_refl.
  - apply frame_trans.
  - intros ev w. apply frame_event.
  - intros ms w. apply frame_silent; reflexivity.
  - intros path w. apply frame_silent; reflexivity.
Qed.

(** Neither the download nor the installer run removes a file: the
    temporary installer outlives [installLinux]. *)
Lemma installLinux_keeps_files h url : respects keeps_files (installLinux h url).
Proof.
  apply respects_installLinux.
  - intros w. unfold keeps_files. reflexivity.
  - apply keeps_files_trans.
  - intros ev w _. unfold keeps_files. reflexivity.
  - intros ms w. unfold keeps_files. reflexivity.
  - apply keeps_files_add.
Qed.

(** *** The preference gate (lines 140-151) *)

Lemma drop_trace_app (l evs : list Event) :
  drop (length l) (l ++ evs)%list = evs.
Proof. apply drop_app_length. Qed.

Lemma linux_platform h : platform h = "linux" -> String.eqb (platform h) "linux" = true.
Proof. intros ->. reflexivity. Qed.

Lemma gate_open h opt w :
  platform h = "linux" -> passes_gate w ->
  maybeUpgradeCMake h opt w = check_for_upgrade h opt w.
Proof.
  intros Hp [Hnever Hgate].
  unfold maybeUpgradeCMake. rewrite (linux_platform h Hp). simpl.
  unfold bind at 1. unfold upgradePreference, globalState_get.
  fold (stored_preference w). rewrite Hnever.
  destruct Hgate as [Hfalsy | [lastNag [Hnum Hlt]]].
  - rewrite Hfalsy. reflexivity.
  - destruct (ToBoolean (stored_preference w)); [ | reflexivity ].
    unfold bind, nagged_recently, bind, Date_getTime. rewrite Hnum.
    unfold ret. rewrite Hlt. reflexivity.
Qed.

Lemma gate_never h opt w :
  stored_preference w = Str "never" ->
  maybeUpgradeCMake h opt w = Normal Undefined w.
Proof.
  intros Hpref. unfold maybeUpgradeCMake.
  destruct (negb (String.eqb (platform h) "linux")); [ reflexivity | ].
  unfold bind at 1. unfold upgradePreference, globalState_get.
  fold (stored_preference w). rewrite Hpref. reflexivity.
Qed.

Lemma gate_deferred h opt w t :
  stored_preference w = UpgradeDelay t ->
  now w - t < nag_window ->
  maybeUpgradeCMake h opt w = Normal Undefined w.
Proof.
  intros Hpref Hlt. unfold maybeUpgradeCMake.
  destruct (negb (String.eqb (platform h) "linux")); [ reflexivity | ].
  unfold bind at 1. unfold upgradePreference, globalState_get.
  fold (stored_preference w). rewrite Hpref. simpl.
  unfold bind, nagged_recently, bind, Date_getTime. simpl.
  unfold ret.
  destruct (Z.ltb_spec (now w - t) nag_window); [ reflexivity | lia ].
Qed.

(** The gate has three ways out: the call returns with nothing done, it
    rejects with nothing done (a coercion that throws), or it goes on to
    the version comparison. *)
Lemma gate_cases h opt w :
  maybeUpgradeCMake h opt w = Normal Undefined w \/
  (exists e, maybeUpgradeCMake h opt w = Throw e w) \/
  maybeUpgradeCMake h opt w = check_for_upgrade h opt w.
Proof.
  remember (maybeUpgradeCMake h opt w) as r eqn:E.
  unfold maybeUpgradeCMake in E.
  destruct (negb (String.eqb (platform h) "linux")); [ left; exact E | ].
  unfold bind at 1 in E. unfold upgradePreference, globalState_get in E.
  fold (stored_preference w) in E.
  destruct (strict_eq_string (stored_preference w) "never"); [ left; exact E | ].
  destruct (ToBoolean (stored_preference w)); [ | right; right; exact E ].
  unfold bind, nagged_recently, bind, Date_getTime in E.
  destruct (ToNumber (get_lastNag (stored_preference w))) as [lastNag|].
  - unfold ret in E.
    destruct (lt (sub (Num (now w)) lastNag) (Num nag_window));
      [ left; exact E | right; right; exact E ].
  - destruct (engine_less_than h (get_lastNag (stored_preference w)) (now w) nag_window)
      as [e|[|]].
    + right. left. exists e. exact E.
    + left. exact E.
    + right. right. exact E.
Qed.

Lemma deferred_passes_gate w t :
  stored_preference w = UpgradeDelay t ->
  nag_window <= now w - t ->
  passes_gate w.
Proof.
  intros Hpref Hge. unfold passes_gate. rewrite Hpref. split; [ reflexivity | ].
  right. exists (Num t). split; [ reflexivity | ]. simpl.
  apply Z.ltb_ge. exact Hge.
Qed.

(** *** The version comparison (lines 152-165) *)

Lemma check_for_upgrade_throws h opt w e :
  versionLess h (currentVersion opt) (version (available opt)) = inl e ->
  check_for_upgrade h opt w =
    Normal Null
      (if instanceof_InvalidVersionString e
       then add_event (compared opt) w
       else add_event (reported e) (add_event (compared opt) w)).
Proof.
  intros Hv. unfold check_for_upgrade, bind, try_catch, call_versionLess, bind.
  simpl. rewrite Hv. unfold throw.
  destruct (instanceof_InvalidVersionString e); reflexivity.
Qed.

Lemma check_for_upgrade_not_less h opt w :
  versionLess h (currentVersion opt) (version (available opt)) = inr false ->
  check_for_upgrade h opt w = Normal Undefined (add_event (compared opt) w).
Proof.
  intros Hv. unfold check_for_upgrade, bind, try_catch, call_versionLess, bind.
  simpl. rewrite Hv. reflexivity.
Qed.

Lemma check_for_upgrade_less h opt w :
  versionLess h (currentVersion opt) (version (available opt)) = inr true ->
  check_for_upgrade h opt w = prompt_and_upgrade h opt (add_event (compared opt) w).
Proof.
  intros Hv. unfold check_for_upgrade, bind, try_catch, call_versionLess, bind.
  simpl. rewrite Hv. reflexivity.
Qed.

(** *** The prompt (lines 167-205) *)

Lemma prompt_dismissed h opt w :
  chosen_item (upgrade_reply h opt) = None ->
  prompt_and_upgrade h opt w = Normal Undefined (answered h opt w).
Proof.
  intros Hc. unfold prompt_and_upgrade, bind, showInformationMessage, bind.
  simpl. fold upgrade_items. fold (upgrade_reply h opt). rewrite Hc. reflexivity.
Qed.

Lemma prompt_never h opt w :
  chosen_item (upgrade_reply h opt) = Some dontAskAgain ->
  prompt_and_upgrade h opt w =
    Normal Undefined (written (Str "never") (answered h opt w)).
Proof.
  intros Hc. unfold prompt_and_upgrade, bind, showInformationMessage, bind.
  simpl. fold upgrade_items. fold (upgrade_reply h opt). rewrite Hc. reflexivity.
Qed.

Lemma prompt_later h opt w :
  chosen_item (upgrade_reply h opt) = Some askMeLater ->
  prompt_and_upgrade h opt w =
    Normal Undefined
      (written (UpgradeDelay (now w + after_ms (upgrade_reply h opt)))
         (answered h opt w)).
Proof.
  intros Hc. unfold prompt_and_upgrade, bind, showInformationMessage, bind.
  simpl. fold upgrade_items. fold (upgrade_reply h opt). rewrite Hc. reflexivity.
Qed.

(** Any other answer: nothing is written, whatever the download and the
    installer do. *)
Lemma prompt_other h opt w c :
  chosen_item (upgrade_reply h opt) = Some c ->
  c <> dontAskAgain -> c <> askMeLater ->
  match prompt_and_upgrade h opt w with
  | Normal _ w' => frame w w'
  | Throw _ w' => frame w w'
  end.
Proof.
  intros Hc Hn Hl.
  assert (Hstart : frame w (answered h opt w)).
  { unfold answered. eapply frame_trans.
    - apply (frame_event (ShowInformationMessage (upgrade_message h opt) upgrade_items)).
      reflexivity.
    - apply frame_silent; reflexivity. }
  apply String.eqb_neq in Hn. apply String.eqb_neq in Hl.
  pose (assertion :=
          if String.eqb c doTheUpgrade then ret tt else emit ConsoleAssertFailed).
  pose (install :=
          if String.eqb (platform h) "linux"
          then bind (installLinux h (linuxURL (available opt))) (fun _ => ret Undefined)
          else ret Undefined).
  assert (E : prompt_and_upgrade h opt w =
              bind assertion (fun _ => install) (answered h opt w)).
  { unfold prompt_and_upgrade, bind at 1, showInformationMessage, bind at 1 2.
    simpl. fold upgrade_items. fold (upgrade_reply h opt).
    rewrite Hc, Hn, Hl. reflexivity. }
  assert (Ha : respects frame assertion).
  { unfold assertion. destruct (String.eqb c doTheUpgrade).
    - intros w1. apply frame_refl.
    - intros w1. apply frame_event. reflexivity. }
  assert (Hrest : respects frame install).
  { unfold install. destruct (String.eqb (platform h) "linux").
    - apply respects_bind; [ apply frame_trans | apply installLinux_frame | ].
      intros _ w1. apply frame_refl.
    - intros w1. apply frame_refl. }
  pose proof (respects_bind frame frame_trans assertion _ Ha (fun _ => Hrest)
                (answered h opt w)) as H.
  rewrite E.
  destruct (bind assertion (fun _ => install) (answered h opt w)) as [v w'|e w'];
    eapply frame_trans; eassumption.
Qed.

Lemma stored_preference_lookup w v :
  globalState w !! UPGRADE_PREFERENCE_KEY = Some v -> stored_preference w = v.
Proof. intros H. unfold stored_preference. rewrite H. reflexivity. Qed.

Lemma prompt_and_upgrade_extends h opt w :
  match prompt_and_upgrade h opt w with
  | Normal _ w' => extends w w'
  | Throw _ w' => extends w w'
  end.
Proof.
  destruct (chosen_item (upgrade_reply h opt)) as [c|] eqn:Hc.
  - destruct (String.eqb_spec c dontAskAgain) as [->|Hn].
    { rewrite (prompt_never h opt w Hc). eexists. simpl.
      rewrite <- app_assoc. reflexivity. }
    destruct (String.eqb_spec c askMeLater) as [->|Hl].
    { rewrite (prompt_later h opt w Hc). eexists. simpl.
      rewrite <- app_assoc. reflexivity. }
    pose proof (prompt_other h opt w c Hc Hn Hl) as H.
    destruct (prompt_and_upgrade h opt w); auto using frame_extends.
  - rewrite (prompt_dismissed h opt w Hc). eexists. reflexivity.
Qed.

(** Past the gate the first thing that happens is the version comparison. *)
Lemma check_for_upgrade_compares h opt w :
  exists rest, new_events w (check_for_upgrade h opt w) = compared opt :: rest.
Proof.
  destruct (versionLess h (currentVersion opt) (version (available opt)))
    as [e|[|]] eqn:Hv.
  - rewrite (check_for_upgrade_throws h opt w e Hv).
    destruct (instanceof_InvalidVersionString e); unfold new_events, added; simpl.
    + exists []. apply drop_trace_app.
    + exists [reported e]. rewrite <- app_assoc. apply drop_trace_app.
  - rewrite (check_for_upgrade_less h opt w Hv).
    pose proof (prompt_and_upgrade_extends h opt (add_event (compared opt) w)) as H.
    destruct (prompt_and_upgrade h opt (add_event (compared opt) w))
      as [v w'|e w'];
      destruct H as [evs H]; exists evs; unfold new_events, added; simpl in *;
      rewrite H, <- app_assoc; apply drop_trace_app.
  - rewrite (check_for_upgrade_not_less h opt w Hv). unfold new_events, added; simpl.
    exists []. apply drop_trace_app.
Qed.

Lemma stored_preference_advance ms w :
  stored_preference (advance ms w) = stored_preference w.
Proof. reflexivity. Qed.

Lemma unset_passes_gate time : passes_gate (world_at time None).
Proof. split; [ reflexivity | left; reflexivity ]. Qed.

(** *** What a call may do to the stored preference *)

Lemma filter_no_update evs :
  Forall (fun ev => is_update ev = false) evs -> List.filter is_update evs = [].
Proof.
  induction 1 as [|ev evs Hev _ IH]; simpl; [ reflexivity | ].
  rewrite Hev. exact IH.
Qed.

Lemma frame_outcome reply w w' : frame w w' -> preference_outcome reply w w'.
Proof.
  intros [G [evs [T F]]]. exists evs. split; [ exact T | ]. left.
  split; [ exact G | apply filter_no_update, F ].
Qed.

Lemma outcome_after_event reply ev w w' :
  is_update ev = false ->
  preference_outcome reply (add_event ev w) w' -> preference_outcome reply w w'.
Proof.
  intros Hev [evs [T H]]. exists (ev :: evs). split.
  - rewrite T. simpl. rewrite <- app_assoc. reflexivity.
  - simpl. rewrite Hev. exact H.
Qed.

Lemma prompt_and_upgrade_outcome h opt w :
  match prompt_and_upgrade h opt w with
  | Normal _ w' => preference_outcome (upgrade_reply h opt) w w'
  | Throw _ w' => preference_outcome (upgrade_reply h opt) w w'
  end.
Proof.
  destruct (chosen_item (upgrade_reply h opt)) as [c|] eqn:Hc.
  - destruct (String.eqb_spec c dontAskAgain) as [->|Hn].
    { rewrite (prompt_never h opt w Hc). eexists. split.
      - simpl. rewrite <- app_assoc. reflexivity.
      - right. right. split; [ exact Hc | split; reflexivity ]. }
    destruct (String.eqb_spec c askMeLater) as [->|Hl].
    { rewrite (prompt_later h opt w Hc). eexists. split.
      - simpl. rewrite <- app_assoc. reflexivity.
      - right. left. split; [ exact Hc | cbv zeta; split; reflexivity ]. }
    pose proof (prompt_other h opt w c Hc Hn Hl) as H.
    destruct (prompt_and_upgrade h opt w); auto using frame_outcome.
  - rewrite (prompt_dismissed h opt w Hc). apply frame_outcome.
    unfold answered. eapply frame_trans.
    + apply (frame_event (ShowInformationMessage (upgrade_message h opt) upgrade_items)).
      reflexivity.
    + apply frame_silent; reflexivity.
Qed.

Lemma check_for_upgrade_outcome h opt w :
  match check_for_upgrade h opt w with
  | Normal _ w' => preference_outcome (upgrade_reply h opt) w w'
  | Throw _ w' => preference_outcome (upgrade_reply h opt) w w'
  end.
Proof.
  destruct (versionLess h (currentVersion opt) (version (available opt)))
    as [e|[|]] eqn:Hv.
  - rewrite (check_for_upgrade_throws h opt w e Hv). apply frame_outcome.
    destruct (instanceof_InvalidVersionString e).
    + apply frame_event. reflexivity.
    + eapply frame_trans; apply frame_event; reflexivity.
  - rewrite (check_for_upgrade_less h opt w Hv).
    pose proof (prompt_and_upgrade_outcome h opt (add_event (compared opt) w)) as H.
    destruct (prompt_and_upgrade h opt (add_event (compared opt) w));
      apply (outcome_after_event _ (compared opt)); auto.
  - rewrite (check_for_upgrade_not_less h opt w Hv). apply frame_outcome.
    apply frame_event. reflexivity.
Qed.

(** *** The download (lines 35-88) *)

Lemma add_events_nil w : add_events [] w = w.
Proof. destruct w. unfold add_events. simpl. rewrite app_nil_r. reflexivity. Qed.

Lemma add_event_add_events ev evs w :
  add_events evs (add_event ev w) = add_events (ev :: evs) w.
Proof. unfold add_events, add_event. simpl. rewrite <- app_assoc. reflexivity. Qed.

Lemma add_events_add_event ev evs w :
  add_event ev (add_events evs w) = add_events (evs ++ [ev]) w.
Proof. unfold add_events, add_event. simpl. rewrite <- app_assoc. reflexivity. Qed.

Lemma exceeds_one_percent x size :
  0 < size ->
  exceeds_one (percent x (Num size)) = (size <? 100 * x).
Proof.
  intros Hsize. unfold exceeds_one, percent.
  destruct (Z.ltb_spec size (100 * x)) as [Hlt|Hge].
  - apply negb_true_iff. apply not_true_is_false. intros Hle.
    apply Qle_bool_iff in Hle. rewrite Qred_correct in Hle.
    destruct size as [|p|p]; try lia.
    unfold Qle, Qdiv, Qmult, Qinv, inject_Z in Hle. simpl in Hle. lia.
  - apply negb_false_iff. apply Qle_bool_iff. rewrite Qred_correct.
    destruct size as [|p|p]; try lia.
    unfold Qle, Qdiv, Qmult, Qinv, inject_Z. simpl. lia.
Qed.

(** A chunk that brings the unreported bytes above 1% of the total is
    reported; any other chunk is only counted. *)
Lemma on_data_reports size st data_length w :
  0 < size ->
  let downloaded := totalDownloaded st + Z.of_nat data_length in
  size < 100 * (downloaded - prevDownloaded st) ->
  on_data host_progress (Num size) st data_length w =
    Normal {| prevDownloaded := downloaded; totalDownloaded := downloaded |}
      (add_events
         (report_events size (prevDownloaded st) [downloaded - prevDownloaded st]) w).
Proof.
  intros Hsize downloaded Hlt. unfold on_data. fold downloaded.
  assert (Hnz : strict_neq_zero (Num size) = true).
  { simpl. apply negb_true_iff, Z.eqb_neq. lia. }
  rewrite Hnz, (exceeds_one_percent _ size Hsize).
  apply Z.ltb_lt in Hlt. rewrite Hlt. simpl.
  replace (prevDownloaded st + (downloaded - prevDownloaded st)) with downloaded by lia.
  reflexivity.
Qed.

Lemma on_data_counts size st data_length w :
  0 < size ->
  let downloaded := totalDownloaded st + Z.of_nat data_length in
  100 * (downloaded - prevDownloaded st) <= size ->
  on_data host_progress (Num size) st data_length w =
    Normal {| prevDownloaded := prevDownloaded st; totalDownloaded := downloaded |} w.
Proof.
  intros Hsize downloaded Hle. unfold on_data. fold downloaded.
  assert (Hnz : strict_neq_zero (Num size) = true).
  { simpl. apply negb_true_iff, Z.eqb_neq. lia. }
  rewrite Hnz, (exceeds_one_percent _ size Hsize).
  apply Z.ltb_ge in Hle. rewrite Hle. reflexivity.
Qed.

(** The throttle over a whole body. *)
Lemma on_body_throttle size body :
  0 < size ->
  forall st w,
    prevDownloaded st <= totalDownloaded st ->
    100 * (totalDownloaded st - prevDownloaded st) <= size ->
    exists deltas st',
      on_body host_progress (Num size) st body w =
        Normal st' (add_events (report_events size (prevDownloaded st) deltas) w) /\
      Forall (fun delta => size < 100 * delta) deltas /\
      prevDownloaded st' = prevDownloaded st + total_of deltas /\
      totalDownloaded st' = totalDownloaded st + received body /\
      prevDownloaded st' <= totalDownloaded st' /\
      100 * (totalDownloaded st' - prevDownloaded st') <= size.
Proof.
  intros Hsize. induction body as [|data_length rest IH]; intros st w Hord Hinv.
  - exists [], st. simpl. rewrite add_events_nil.
    repeat split; [ constructor | lia | lia | exact Hord | exact Hinv ].
  - set (downloaded := totalDownloaded st + Z.of_nat data_length).
    destruct (Z.lt_ge_cases size (100 * (downloaded - prevDownloaded st)))
      as [Hlt|Hge].
    + pose proof (on_data_reports size st data_length w Hsize Hlt) as Hstep.
      fold downloaded in Hstep.
      destruct (IH {| prevDownloaded := downloaded; totalDownloaded := downloaded |}
                  (add_events
                     (report_events size (prevDownloaded st)
                        [downloaded - prevDownloaded st]) w))
        as [deltas [st' [Hrun [Hall [Hprev [Htotal [Hord' Hlag]]]]]]].
      { simpl. lia. }
      { simpl. lia. }
      exists ((downloaded - prevDownloaded st) :: deltas), st'.
      simpl in Hprev, Htotal. simpl. unfold bind. rewrite Hstep, Hrun.
      repeat split.
      * f_equal. simpl.
        replace (prevDownloaded st + (downloaded - prevDownloaded st))
          with downloaded by lia.
        unfold add_events. simpl. rewrite <- app_assoc. reflexivity.
      * constructor; assumption.
      * lia.
      * unfold downloaded in Htotal. lia.
      * exact Hord'.
      * exact Hlag.
    + pose proof (on_data_counts size st data_length w Hsize Hge) as Hstep.
      fold downloaded in Hstep.
      destruct (IH {| prevDownloaded := prevDownloaded st; totalDownloaded := downloaded |} w)
        as [deltas [st' [Hrun [Hall [Hprev [Htotal [Hord' Hlag]]]]]]].
      { simpl. unfold downloaded. lia. }
      { simpl. exact Hge. }
      exists deltas, st'.
      simpl in Hrun, Hprev, Htotal. simpl. unfold bind. rewrite Hstep, Hrun.
      repeat split; try assumption. unfold downloaded in Htotal. lia.
Qed.

(** Without a usable total nothing is reported, whatever the handle. *)
Lemma on_body_silent pr totalSize body :
  totalSize = NaN \/ totalSize = Num 0 ->
  forall st w,
    on_body pr totalSize st body w =
      Normal {| prevDownloaded := prevDownloaded st;
                totalDownloaded := totalDownloaded st + received body |} w.
Proof.
  intros Htotal. induction body as [|data_length rest IH]; intros st w.
  - simpl. unfold ret. destruct st. simpl. rewrite Z.add_0_r. reflexivity.
  - simpl. unfold bind.
    assert (Hstep : on_data pr totalSize st data_length w =
              Normal {| prevDownloaded := prevDownloaded st;
                        totalDownloaded := totalDownloaded st + Z.of_nat data_length |} w).
    { unfold on_data. destruct Htotal as [-> | ->]; reflexivity. }
    rewrite Hstep, IH. simpl. rewrite Z.add_assoc. reflexivity.
Qed.

Lemma downloadFile_ok h url prefix postfix pr w fpath header body :
  tmp_file h prefix postfix = inr fpath ->
  https_get h url = Response 200 header body ->
  downloadFile h url prefix postfix pr w =
    bind (on_body pr (parseInt (content_length_or_zero header))
            {| prevDownloaded := 0; totalDownloaded := 0 |} body)
         (fun _ => bind (emit (downloaded_message url fpath)) (fun _ => ret fpath))
         (add_file fpath w).
Proof.
  intros Htmp Hget. unfold downloadFile. rewrite Htmp, Hget. reflexivity.
Qed.

(** The ['data'] handler never fails; it only adds events. *)
Lemma on_data_settles totalSize st data_length w :
  exists st' evs,
    on_data host_progress totalSize st data_length w = Normal st' (add_events evs w).
Proof.
  unfold on_data.
  destruct (strict_neq_zero totalSize);
    [ | eexists; exists []; rewrite add_events_nil; reflexivity ].
  destruct (exceeds_one _);
    [ | eexists; exists []; rewrite add_events_nil; reflexivity ].
  destruct (percent _ totalSize) as [increment|];
    [ | eexists; exists []; rewrite add_events_nil; reflexivity ].
  destruct (percent _ totalSize) as [total|];
    [ | eexists; exists []; rewrite add_events_nil; reflexivity ].
  eexists. eexists [_]. reflexivity.
Qed.

Lemma on_body_settles totalSize body :
  forall st w,
    exists st' evs,
      on_body host_progress totalSize st body w = Normal st' (add_events evs w).
Proof.
  induction body as [|data_length rest IH]; intros st w.
  - exists st, []. rewrite add_events_nil. reflexivity.
  - destruct (on_data_settles totalSize st data_length w) as [st1 [evs1 Hstep]].
    destruct (IH st1 (add_events evs1 w)) as [st2 [evs2 Hrun]].
    exists st2, (evs1 ++ evs2)%list. simpl. unfold bind. rewrite Hstep, Hrun.
    unfold add_events. simpl. rewrite <- app_assoc. reflexivity.
Qed.

Lemma download_task_unfold h url w :
  download_task h url w =
    downloadFile h url (basename h url ".sh") ".sh" host_progress
      (add_event (WithProgress ("Downloading " ++ basename h url ".sh")) w).
Proof. reflexivity. Qed.

Lemma downloadFile_token h tok url prefix postfix pr w :
  downloadFile (with_token h tok) url prefix postfix pr w =
  downloadFile h url prefix postfix pr w.
Proof. reflexivity. Qed.

(** *** The installer's exit code (lines 104-131) *)

Lemma installLinux_after_download h url w pkexec installerPath w1 :
  which h "pkexec" = Some pkexec ->
  pkexec <> "" ->
  download_task h url w = Normal installerPath w1 ->
  installLinux h url w =
    (let res :=
       execute h pkexec [installerPath; "--exclude-subdir"; "--prefix=/usr/local"] in
     if retc res =? 127 then
       showErrorMessage "Failed to authorize for running the CMake installation."
     else if retc res =? 126 then
       showErrorMessage
         "You dismissed the request for permission to perform the CMake installation."
     else if negb (retc res =? 0) then
       bind
         (emit (LogError
                  ("The CMake installer returned non-zero [" ++ pretty (retc res) ++ "]: ")
                  (stderr res)))
         (fun _ =>
            showErrorMessage
              "The CMake installer exited with non-zero. Check the output panel for more information")
     else
       bind
         (showInformationMessage h
            "The new CMake is successfull installed to /usr/local/bin/cmake. Reload VSCode to complete changes."
            ["Restart Now"])
         (fun chosen =>
            match chosen with
            | Some c =>
                if String.eqb c "Restart Now"
                then emit (ExecuteCommand "workbench.action.reloadWindow")
                else ret tt
            | None => ret tt
            end))
      (add_event
         (Execute pkexec [installerPath; "--exclude-subdir"; "--prefix=/usr/local"])
         (add_event (WithProgress "Running CMake Installer") w1)).
Proof.
  intros Hwhich Hne Hdl. apply String.eqb_neq in Hne.
  unfold installLinux. rewrite Hwhich, Hne. unfold bind at 1.
  change (withProgress h ("Downloading " ++ basename h url ".sh")
            (fun pr _ => downloadFile h url (basename h url ".sh") ".sh" pr) w)
    with (download_task h url w).
  rewrite Hdl. reflexivity.
Qed.

Lemma add_event_inj ev1 ev2 w : add_event ev1 w = add_event ev2 w -> ev1 = ev2.
Proof.
  intros H. apply (f_equal trace) in H. simpl in H.
  apply app_inv_head in H. congruence.
Qed.

Lemma worlds_differ_by_trace w1 w2 : trace w1 <> trace w2 -> w1 <> w2.
Proof. intros Hne Heq. apply Hne. rewrite Heq. reflexivity. Qed.

(** *** Runs that differ only in the stored preference *)

Create HintDb oblivious.

Lemma oblivious_ret {A} (a : A) : oblivious (ret a).
Proof. intros w1 w2 H. split; [ reflexivity | exact H ]. Qed.

Lemma oblivious_throw {A} (e : Exception) : oblivious (@throw A e).
Proof. intros w1 w2 H. split; [ reflexivity | exact H ]. Qed.

Lemma oblivious_bind {A B} (m : M A) (f : A -> M B) :
  oblivious m -> (forall a, oblivious (f a)) -> oblivious (bind m f).
Proof.
  intros Hm Hf w1 w2 H. unfold bind. specialize (Hm w1 w2 H).
  destruct (m w1) as [a1 w1'|e1 w1'], (m w2) as [a2 w2'|e2 w2'];
    simpl in Hm; try contradiction.
  - destruct Hm as [-> Hw]. apply Hf, Hw.
  - exact Hm.
Qed.

Lemma oblivious_try_catch {A} (m : M A) (handler : Exception -> M A) :
  oblivious m -> (forall e, oblivious (handler e)) -> oblivious (try_catch m handler).
Proof.
  intros Hm Hh w1 w2 H. unfold try_catch. specialize (Hm w1 w2 H).
  destruct (m w1) as [a1 w1'|e1 w1'], (m w2) as [a2 w2'|e2 w2'];
    simpl in Hm; try contradiction.
  - exact Hm.
  - destruct Hm as [-> Hw]. apply Hh, Hw.
Qed.

Lemma oblivious_emit ev : oblivious (emit ev).
Proof.
  intros w1 w2 [Hf [Hn [Ht Hg]]]. split; [ reflexivity | ].
  repeat split; simpl; congruence.
Qed.

Lemma oblivious_elapse ms : oblivious (elapse ms).
Proof.
  intros w1 w2 [Hf [Hn [Ht Hg]]]. split; [ reflexivity | ].
  repeat split; simpl; congruence.
Qed.

Lemma oblivious_create_file path : oblivious (create_file path).
Proof.
  intros w1 w2 [Hf [Hn [Ht Hg]]]. split; [ reflexivity | ].
  repeat split; simpl; congruence.
Qed.

Lemma oblivious_Date_getTime : oblivious Date_getTime.
Proof.
  intros w1 w2 H. split; [ | exact H ]. destruct H as [_ [Hn _]]. exact Hn.
Qed.

Lemma oblivious_setUpgradePreference v : oblivious (setUpgradePreference v).
Proof.
  intros w1 w2 [Hf [Hn [Ht Hg]]]. split; [ reflexivity | ].
  repeat split; simpl; try congruence.
  rewrite !delete_insert_eq. exact Hg.
Qed.

#[export] Hint Resolve oblivious_ret oblivious_throw oblivious_emit oblivious_elapse
  oblivious_create_file oblivious_Date_getTime oblivious_setUpgradePreference
  : oblivious.

Ltac oblivious_steps :=
  repeat first
    [ solve [ auto with oblivious ]
    | apply oblivious_bind; [ | intros ? ]
    | match goal with
      | |- oblivious (if ?b then _ else _) => destruct b
      | |- oblivious (match ?x with _ => _ end) => destruct x
      end ].

Lemma oblivious_showInformationMessage h message items :
  oblivious (showInformationMessage h message items).
Proof. unfold showInformationMessage. oblivious_steps. Qed.

Lemma oblivious_showErrorMessage message : oblivious (showErrorMessage message).
Proof. unfold showErrorMessage. oblivious_steps. Qed.

Lemma oblivious_exec h command args : oblivious (exec h command args).
Proof. unfold exec. oblivious_steps. Qed.

#[export] Hint Resolve oblivious_showInformationMessage oblivious_showErrorMessage
  oblivious_exec : oblivious.

Lemma oblivious_on_data totalSize st data_length :
  oblivious (on_data host_progress totalSize st data_length).
Proof. unfold on_data. simpl. oblivious_steps. Qed.

Lemma oblivious_on_body totalSize body :
  forall st, oblivious (on_body host_progress totalSize st body).
Proof.
  induction body as [|data_length rest IH]; intros st; simpl.
  - oblivious_steps.
  - apply oblivious_bind; [ apply oblivious_on_data | apply IH ].
Qed.

Lemma oblivious_download_task h url : oblivious (download_task h url).
Proof.
  unfold download_task, withProgress, downloadFile.
  apply oblivious_bind; [ oblivious_steps | intros _ ].
  destruct (tmp_file h _ _); [ oblivious_steps | ].
  apply oblivious_bind; [ oblivious_steps | intros _ ].
  destruct (https_get h url); [ oblivious_steps | oblivious_steps | ].
  destruct (negb _); [ oblivious_steps | ].
  apply oblivious_bind; [ apply oblivious_on_body | intros _ ]. oblivious_steps.
Qed.

Lemma oblivious_installLinux h url : oblivious (installLinux h url).
Proof.
  unfold installLinux.
  destruct (which h "pkexec") as [pkexec|]; [ | oblivious_steps ].
  destruct (String.eqb pkexec ""); [ oblivious_steps | ].
  apply oblivious_bind; [ apply oblivious_download_task | intros installerPath ].
  apply oblivious_bind; [ unfold withProgress; oblivious_steps | intros res ].
  oblivious_steps.
Qed.

Lemma oblivious_prompt_and_upgrade h opt : oblivious (prompt_and_upgrade h opt).
Proof.
  unfold prompt_and_upgrade.
  apply oblivious_bind; [ oblivious_steps | intros [c|] ]; [ | oblivious_steps ].
  destruct (String.eqb c dontAskAgain); [ oblivious_steps | ].
  destruct (String.eqb c askMeLater); [ oblivious_steps | ].
  apply oblivious_bind; [ oblivious_steps | intros _ ].
  destruct (String.eqb (platform h) "linux"); [ | oblivious_steps ].
  apply oblivious_bind; [ apply oblivious_installLinux | intros _ ]. oblivious_steps.
Qed.

Lemma oblivious_check_for_upgrade h opt : oblivious (check_for_upgrade h opt).
Proof.
  unfold check_for_upgrade.
  apply oblivious_bind.
  - apply oblivious_try_catch.
    + unfold call_versionLess. oblivious_steps.
    + intros e. oblivious_steps.
  - intros [[|]|]; [ apply oblivious_prompt_and_upgrade | oblivious_steps | oblivious_steps ].
Qed.

Lemma alike_forget w : alike w (forget_preference w).
Proof.
  repeat split; simpl. symmetry. apply delete_delete_eq.
Qed.

Lemma forget_passes_gate w : passes_gate (forget_preference w).
Proof.
  unfold passes_gate, stored_preference. simpl. rewrite lookup_delete_eq.
  split; [ reflexivity | left; reflexivity ].
Qed.

(** *** Stored values of other shapes *)

Lemma lookup_absent_field fields name :
  has_field fields name = false -> lookup_field fields name = Undefined.
Proof.
  induction fields as [|[k v] rest IH]; simpl; [ reflexivity | ].
  destruct (String.eqb k name); simpl; [ discriminate | exact IH ].
Qed.

Lemma lacks_lastNag_NaN v :
  lacks_lastNag v = true -> ToNumber (get_lastNag v) = Some NaN.
Proof.
  destruct v as [| | | | | |fields]; simpl; try reflexivity.
  intros H. apply negb_true_iff in H.
  rewrite (lookup_absent_field fields "lastNag" H). reflexivity.
Qed.

Lemma gate_closed h opt w lastNag :
  strict_eq_string (stored_preference w) "never" = false ->
  ToBoolean (stored_preference w) = true ->
  ToNumber (get_lastNag (stored_preference w)) = Some lastNag ->
  lt (sub (Num (now w)) lastNag) (Num nag_window) = true ->
  maybeUpgradeCMake h opt w = Normal Undefined w.
Proof.
  intros Hnever Htruthy Hnum Hlt. unfold maybeUpgradeCMake.
  destruct (negb (String.eqb (platform h) "linux")); [ reflexivity | ].
  unfold bind at 1. unfold upgradePreference, globalState_get.
  fold (stored_preference w). rewrite Hnever, Htruthy.
  unfold bind, nagged_recently, bind, Date_getTime. rewrite Hnum.
  unfold ret. rewrite Hlt. reflexivity.
Qed.

Lemma alike_with_preference v w : alike w (with_preference v w).
Proof.
  repeat split; simpl. symmetry. apply delete_insert_eq.
Qed.

Lemma stored_with_preference v w : stored_preference (with_preference v w) = v.
Proof. unfold stored_preference. simpl. rewrite lookup_insert_eq. reflexivity. Qed.

(* ===================================================================== *)
(** ** The claims *)
(* ===================================================================== *)

(** C1.  On the platform where the workflow runs at all, with a stored
    deferral [{lastNag: t}]: if [now - t] is below 48 hours the call returns
    with nothing done (no version comparison, no prompt); otherwise the very
    next event is the version comparison of the eligibility check.  So the
    run stops before any comparison or prompt exactly when
    [now - t < 48 * 60 * 60 * 1000]. *)
Theorem deferred_gate_48_hours (h : Host) (opt : UpgradeOptions) (w : World) (t : Z) :
  platform h = "linux" ->
  globalState w !! UPGRADE_PREFERENCE_KEY = Some (UpgradeDelay t) ->
  let r := maybeUpgradeCMake h opt w in
  (now w - t < 48 * 60 * 60 * 1000 -> r = Normal Undefined w) /\
  (48 * 60 * 60 * 1000 <= now w - t ->
     exists rest,
       new_events w r =
         VersionLess (currentVersion opt) (version (available opt)) :: rest) /\
  (forallb (fun ev => negb (is_check_or_prompt ev)) (new_events w r) = true
     <-> now w - t < 48 * 60 * 60 * 1000).
Proof.
  intros Hp Hs r. apply stored_preference_lookup in Hs.
  assert (Hstop : now w - t < 48 * 60 * 60 * 1000 -> r = Normal Undefined w).
  { intros Hlt. apply (gate_deferred h opt w t Hs). exact Hlt. }
  assert (Hgo : 48 * 60 * 60 * 1000 <= now w - t ->
                exists rest, new_events w r = compared opt :: rest).
  { intros Hge. unfold r.
    rewrite (gate_open h opt w Hp (deferred_passes_gate w t Hs Hge)).
    apply check_for_upgrade_compares. }
  split; [ exact Hstop | ]. split; [ exact Hgo | ]. split.
  - intros Hquiet.
    destruct (Z.lt_ge_cases (now w - t) (48 * 60 * 60 * 1000)) as [Hlt|Hge];
      [ exact Hlt | ].
    destruct (Hgo Hge) as [rest Hrest]. rewrite Hrest in Hquiet. discriminate.
  - intros Hlt. rewrite (Hstop Hlt). unfold new_events, added. rewrite drop_all. reflexivity.
Qed.

Lemma deferred_gate_48_hours_witness :
  let w := world_at (1700000000000 + 47 * 3600000) (Some (UpgradeDelay 1700000000000)) in
  let r := maybeUpgradeCMake dismissing_host sample_options w in
  (now w - 1700000000000 < 48 * 60 * 60 * 1000 -> r = Normal Undefined w) /\
  (48 * 60 * 60 * 1000 <= now w - 1700000000000 ->
     exists rest,
       new_events w r =
         VersionLess (currentVersion sample_options)
           (version (available sample_options)) :: rest) /\
  (forallb (fun ev => negb (is_check_or_prompt ev)) (new_events w r) = true
     <-> now w - 1700000000000 < 48 * 60 * 60 * 1000).
Proof.
  apply (deferred_gate_48_hours dismissing_host sample_options
           (world_at (1700000000000 + 47 * 3600000) (Some (UpgradeDelay 1700000000000)))
           1700000000000).
  - reflexivity.
  - reflexivity.
Defined.

(** C2.  After the download, [installLinux] runs the installer through
    [pkexec] and branches on its exit code: 127 shows the
    authorization-failure message, 126 the message that the user dismissed
    the request, any other non-zero code logs the code with the captured
    [stderr] and shows the generic failure message, and 0 shows the success
    message offering "Restart Now" (reloading the window when that is
    chosen).  The four resulting worlds are pairwise different. *)
Theorem installer_exit_codes (h : Host) (url : string) (w : World)
    (pkexec installerPath : string) (w1 : World) :
  which h "pkexec" = Some pkexec ->
  pkexec <> "" ->
  download_task h url w = Normal installerPath w1 ->
  let args := [installerPath; "--exclude-subdir"; "--prefix=/usr/local"] in
  let res := execute h pkexec args in
  let ran :=
    add_event (Execute pkexec args)
      (add_event (WithProgress "Running CMake Installer") w1) in
  let unauthorized :=
    add_event
      (ShowErrorMessage "Failed to authorize for running the CMake installation.") ran in
  let declined :=
    add_event
      (ShowErrorMessage
         "You dismissed the request for permission to perform the CMake installation.")
      ran in
  let failed :=
    add_event
      (ShowErrorMessage
         "The CMake installer exited with non-zero. Check the output panel for more information")
      (add_event
         (LogError
            ("The CMake installer returned non-zero [" ++ pretty (retc res) ++ "]: ")
            (stderr res))
         ran) in
  let success_message :=
    "The new CMake is successfull installed to /usr/local/bin/cmake. Reload VSCode to complete changes." in
  let restart := showInformationMessage_reply h success_message ["Restart Now"] in
  let offered :=
    advance (after_ms restart)
      (add_event (ShowInformationMessage success_message ["Restart Now"]) ran) in
  let succeeded :=
    if decide (chosen_item restart = Some "Restart Now")
    then add_event (ExecuteCommand "workbench.action.reloadWindow") offered
    else offered in
  (retc res = 127 -> installLinux h url w = Normal tt unauthorized) /\
  (retc res = 126 -> installLinux h url w = Normal tt declined) /\
  (retc res <> 127 -> retc res <> 126 -> retc res <> 0 ->
   installLinux h url w = Normal tt failed) /\
  (retc res = 0 -> installLinux h url w = Normal tt succeeded) /\
  unauthorized <> declined /\ unauthorized <> failed /\ unauthorized <> succeeded /\
  declined <> failed /\ declined <> succeeded /\ failed <> succeeded.
Proof.
  intros Hwhich Hne Hdl args res ran unauthorized declined failed
    success_message restart offered succeeded.
  pose proof (installLinux_after_download h url w pkexec installerPath w1
                Hwhich Hne Hdl) as E.
  cbv zeta in E. fold args res ran in E.
  repeat split.
  - intros Hc. rewrite E, Hc. reflexivity.
  - intros Hc. rewrite E, Hc. reflexivity.
  - intros H127 H126 H0. rewrite E.
    apply Z.eqb_neq in H127, H126, H0. rewrite H127, H126, H0. reflexivity.
  - intros Hc. rewrite E, Hc. simpl.
    unfold bind, showInformationMessage, bind. simpl.
    fold success_message restart. unfold succeeded.
    destruct (chosen_item restart) as [c|] eqn:Hchosen.
    + destruct (String.eqb_spec c "Restart Now") as [->|Hother].
      * rewrite decide_True by reflexivity. reflexivity.
      * rewrite decide_False by congruence. reflexivity.
    + rewrite decide_False by congruence. reflexivity.
  - intros H. apply add_event_inj in H. discriminate H.
  - apply worlds_differ_by_trace. simpl. intros H.
    rewrite <- !app_assoc in H. do 3 apply app_inv_head in H. discriminate H.
  - apply worlds_differ_by_trace. unfold succeeded.
    destruct (decide _); simpl; intros H;
      rewrite <- !app_assoc in H; do 3 apply app_inv_head in H; discriminate H.
  - apply worlds_differ_by_trace. simpl. intros H.
    rewrite <- !app_assoc in H. do 3 apply app_inv_head in H. discriminate H.
  - apply worlds_differ_by_trace. unfold succeeded.
    destruct (decide _); simpl; intros H;
      rewrite <- !app_assoc in H; do 3 apply app_inv_head in H; discriminate H.
  - apply worlds_differ_by_trace. unfold succeeded.
    destruct (decide _); simpl; intros H;
      rewrite <- !app_assoc in H; do 3 apply app_inv_head in H; discriminate H.
Qed.

Lemma installer_exit_codes_witness :
  installLinux declining_host "https://cmake.org/files/cmake.sh"
    (world_at 1700000000000 None) =
  Normal tt
    (add_event
       (ShowErrorMessage
          "You dismissed the request for permission to perform the CMake installation.")
       (add_event
          (Execute "/usr/bin/pkexec"
             ["/tmp/cmake-3.19.2-Linux-x86_64.sh"; "--exclude-subdir"; "--prefix=/usr/local"])
          (add_event (WithProgress "Running CMake Installer") downloaded_world))).
Proof.
  apply (installer_exit_codes declining_host "https://cmake.org/files/cmake.sh"
           (world_at 1700000000000 None) "/usr/bin/pkexec"
           "/tmp/cmake-3.19.2-Linux-x86_64.sh" downloaded_world).
  - reflexivity.
  - discriminate.
  - vm_compute. reflexivity.
  - reflexivity.
Defined.

(** C3 (as the code has it).  With a declared positive total, every
    progress report is for a delta of bytes, counted from the last reported
    point, that exceeds 1% of the total.  At end-of-stream no progress
    report is made: the only effect after the reports is the log line, and
    the promise resolves with the file path.  The bytes never reported are
    at most 1% of the total, so the reported percentages need not reach
    100. *)
Theorem progress_is_throttled (h : Host) (url prefix postfix : string) (w : World)
    (fpath : string) (header : option string) (body : list nat) (size : Z) :
  tmp_file h prefix postfix = inr fpath ->
  https_get h url = Response 200 header body ->
  parseInt (content_length_or_zero header) = Num size ->
  0 < size ->
  exists deltas,
    downloadFile h url prefix postfix host_progress w =
      Normal fpath
        (add_events
           (report_events size 0 deltas ++ [LogInfo ("Downloaded " ++ url ++ " to " ++ fpath)])
           (add_file fpath w)) /\
    Forall (fun delta => size < 100 * delta) deltas /\
    0 <= received body - total_of deltas /\
    100 * (received body - total_of deltas) <= size.
Proof.
  intros Htmp Hget Hparse Hsize.
  rewrite (downloadFile_ok h url prefix postfix host_progress w fpath header body Htmp Hget).
  rewrite Hparse.
  destruct (on_body_throttle size body Hsize
              {| prevDownloaded := 0; totalDownloaded := 0 |} (add_file fpath w))
    as [deltas [st' [Hrun [Hall [Hprev [Htotal [Hord Hlag]]]]]]].
  { simpl. lia. }
  { simpl. lia. }
  simpl in Hrun, Hprev, Htotal.
  exists deltas. unfold bind at 1. rewrite Hrun. unfold bind, emit, ret.
  rewrite add_events_add_event.
  repeat split; [ exact Hall | lia | lia ].
Qed.

Lemma progress_is_throttled_witness :
  exists deltas,
    downloadFile short_last_chunk_host "https://cmake.org/files/cmake.sh" "cmake" ".sh"
      host_progress (world_at 1700000000000 None) =
      Normal "/tmp/cmake-3.19.2-Linux-x86_64.sh"
        (add_events
           (report_events 1000 0 deltas ++
            [LogInfo ("Downloaded " ++ "https://cmake.org/files/cmake.sh" ++ " to "
                      ++ "/tmp/cmake-3.19.2-Linux-x86_64.sh")])
           (add_file "/tmp/cmake-3.19.2-Linux-x86_64.sh" (world_at 1700000000000 None))) /\
    Forall (fun delta => 1000 < 100 * delta) deltas /\
    0 <= received [990%nat; 10%nat] - total_of deltas /\
    100 * (received [990%nat; 10%nat] - total_of deltas) <= 1000.
Proof.
  apply (progress_is_throttled short_last_chunk_host
           "https://cmake.org/files/cmake.sh" "cmake" ".sh"
           (world_at 1700000000000 None) "/tmp/cmake-3.19.2-Linux-x86_64.sh"
           (Some "1000") [990%nat; 10%nat] 1000).
  - reflexivity.
  - reflexivity.
  - reflexivity.
  - lia.
Defined.

(** C3 as stated fails: a 1000-byte body arrives as 990 bytes and then 10
    bytes.  The first chunk is reported as 99%; the last one is exactly 1%
    of the total, which does not exceed it, and end-of-stream reports
    nothing.  The only report ever made says 99%. *)
Lemma no_final_progress_report :
  exists w',
    download_task short_last_chunk_host "https://cmake.org/files/cmake.sh"
      (world_at 1700000000000 None) = Normal "/tmp/cmake-3.19.2-Linux-x86_64.sh" w' /\
    trace w' =
      [WithProgress "Downloading cmake-3.19.2-Linux-x86_64";
       ProgressReport 99 "99%";
       LogInfo "Downloaded https://cmake.org/files/cmake.sh to /tmp/cmake-3.19.2-Linux-x86_64.sh"] /\
    forall increment, ~ In (ProgressReport increment "100%") (trace w').
Proof.
  eexists. split; [ vm_compute; reflexivity | ]. split; [ reflexivity | ].
  intros increment [H|[H|[H|[]]]]; discriminate H.
Qed.

(** C4 (as the code has it).  When the version comparison throws, the
    exception is caught: the call resolves with [null], nothing is shown to
    the user and nothing is stored.  The exception is passed to the error
    sink exactly when it is NOT an [InvalidVersionString]; a version-parse
    failure is dropped silently. *)
Theorem comparison_failure_is_caught (h : Host) (opt : UpgradeOptions) (w : World)
    (e : Exception) :
  platform h = "linux" ->
  passes_gate w ->
  versionLess h (currentVersion opt) (version (available opt)) = inl e ->
  maybeUpgradeCMake h opt w =
    Normal Null
      (if instanceof_InvalidVersionString e
       then add_event (VersionLess (currentVersion opt) (version (available opt))) w
       else
         add_event
           (RollbarException "Error comparing CMake versions for potential upgrade" e)
           (add_event (VersionLess (currentVersion opt) (version (available opt))) w)).
Proof.
  intros Hp Hgate Hv. rewrite (gate_open h opt w Hp Hgate).
  apply check_for_upgrade_throws. exact Hv.
Qed.

Lemma comparison_failure_is_caught_witness :
  maybeUpgradeCMake unparsable_host unparsable_options (world_at 1700000000000 None) =
    Normal Null
      (add_event (VersionLess [3; 10; 0]%N "3.19.x") (world_at 1700000000000 None)).
Proof.
  apply (comparison_failure_is_caught unparsable_host unparsable_options
           (world_at 1700000000000 None)
           (InvalidVersionString "Invalid version string 3.19.x")).
  - reflexivity.
  - apply unset_passes_gate.
  - reflexivity.
Defined.

(** C4 as stated fails: with an [InvalidVersionString] thrown by the
    comparison, the whole trace of the call is the comparison itself; no
    report reaches the error sink. *)
Lemma invalid_version_is_not_reported :
  exists w',
    maybeUpgradeCMake unparsable_host unparsable_options (world_at 1700000000000 None)
      = Normal Null w' /\
    trace w' = [VersionLess [3; 10; 0]%N "3.19.x"] /\
    forall what e, ~ In (RollbarException what e) (trace w').
Proof.
  eexists. split; [ reflexivity | ]. split; [ reflexivity | ].
  intros what e [H|[]]. discriminate H.
Qed.

(** C5 (as the code has it).  [downloadFile] receives no cancellation
    token, and the task that [installLinux] gives to [withProgress] drops
    the one it is offered: the download runs the same whatever the token
    does.  Once [tmp.file] has created the file it is on disk when the
    download settles, whether it resolves (with that path, after a 200
    response) or rejects; and a rejection is the exception thrown by
    [https.get], the request's ['error'], or the non-200 error. *)
Theorem download_is_not_cancellable (h : Host) (tok : CancellationToken)
    (url : string) (w : World) (fpath : string) :
  tmp_file h (basename h url ".sh") ".sh" = inr fpath ->
  download_task (with_token h tok) url w = download_task h url w /\
  match download_task h url w with
  | Normal path w' =>
      path = fpath /\ fpath ∈ files w' /\
      exists header body, https_get h url = Response 200 header body
  | Throw e w' =>
      fpath ∈ files w' /\
      (https_get h url = GetThrows e \/
       https_get h url = RequestError e \/
       (e = Error "Non-200 response when downloading new CMake installer" /\
        exists statusCode header body,
          https_get h url = Response statusCode header body /\ statusCode <> 200))
  end.
Proof.
  intros Htmp. split; [ reflexivity | ].
  rewrite download_task_unfold.
  set (w1 := add_event (WithProgress ("Downloading " ++ basename h url ".sh")) w).
  assert (Hfile : fpath ∈ files (add_file fpath w1)).
  { simpl. apply elem_of_union_l, elem_of_singleton. reflexivity. }
  unfold downloadFile. rewrite Htmp. unfold bind at 1, create_file.
  destruct (https_get h url) as [e|e|statusCode header body] eqn:Hget.
  - split; [ exact Hfile | ]. left. reflexivity.
  - split; [ exact Hfile | ]. right. left. reflexivity.
  - destruct (Z.eqb_spec statusCode 200) as [->|Hcode]; simpl.
    + destruct (on_body_settles (parseInt (content_length_or_zero header)) body
                  {| prevDownloaded := 0; totalDownloaded := 0 |} (add_file fpath w1))
        as [st [evs Hbody]].
      unfold bind at 1. rewrite Hbody. simpl.
      split; [ reflexivity | ]. split; [ exact Hfile | ].
      exists header, body. reflexivity.
    + split; [ exact Hfile | ]. right. right. split; [ reflexivity | ].
      exists statusCode, header, body. split; [ reflexivity | exact Hcode ].
Qed.

Lemma download_is_not_cancellable_witness :
  download_task
    (with_token chunked_host {| signalled_after_chunks := Some 1%nat |})
    "https://cmake.org/files/cmake.sh" (world_at 1700000000000 None)
  = download_task chunked_host "https://cmake.org/files/cmake.sh"
      (world_at 1700000000000 None) /\
  match download_task chunked_host "https://cmake.org/files/cmake.sh"
          (world_at 1700000000000 None) with
  | Normal path w' =>
      path = "/tmp/cmake-3.19.2-Linux-x86_64.sh" /\
      "/tmp/cmake-3.19.2-Linux-x86_64.sh" ∈ files w' /\
      exists header body,
        https_get chunked_host "https://cmake.org/files/cmake.sh"
          = Response 200 header body
  | Throw e w' =>
      "/tmp/cmake-3.19.2-Linux-x86_64.sh" ∈ files w' /\
      (https_get chunked_host "https://cmake.org/files/cmake.sh" = GetThrows e \/
       https_get chunked_host "https://cmake.org/files/cmake.sh" = RequestError e \/
       (e = Error "Non-200 response when downloading new CMake installer" /\
        exists statusCode header body,
          https_get chunked_host "https://cmake.org/files/cmake.sh"
            = Response statusCode header body /\ statusCode <> 200))
  end.
Proof.
  apply (download_is_not_cancellable chunked_host
           {| signalled_after_chunks := Some 1%nat |}
           "https://cmake.org/files/cmake.sh" (world_at 1700000000000 None)
           "/tmp/cmake-3.19.2-Linux-x86_64.sh").
  reflexivity.
Defined.

(** C5 as stated fails: the token handed to the download task fires after
    the first of three chunks, yet the download runs to the end, resolves
    with the path, and the temporary file is on disk. *)
Lemma cancelled_download_still_resolves :
  signalled_after_chunks (progress_token cancelled_host) = Some 1%nat /\
  exists w',
    download_task cancelled_host "https://cmake.org/files/cmake.sh"
      (world_at 1700000000000 None) = Normal "/tmp/cmake-3.19.2-Linux-x86_64.sh" w' /\
    "/tmp/cmake-3.19.2-Linux-x86_64.sh" ∈ files w' /\
    trace w' =
      [WithProgress "Downloading cmake-3.19.2-Linux-x86_64";
       ProgressReport 40 "40%"; ProgressReport 30 "70%"; ProgressReport 30 "100%";
       LogInfo "Downloaded https://cmake.org/files/cmake.sh to /tmp/cmake-3.19.2-Linux-x86_64.sh"].
Proof.
  split; [ reflexivity | ].
  exists (add_events
            [WithProgress "Downloading cmake-3.19.2-Linux-x86_64";
             ProgressReport 40 "40%"; ProgressReport 30 "70%"; ProgressReport 30 "100%";
             LogInfo "Downloaded https://cmake.org/files/cmake.sh to /tmp/cmake-3.19.2-Linux-x86_64.sh"]
            (add_file "/tmp/cmake-3.19.2-Linux-x86_64.sh" (world_at 1700000000000 None))).
  split; [ vm_compute; reflexivity | ]. split; [ | reflexivity ].
  simpl. apply elem_of_union_l, elem_of_singleton. reflexivity.
Qed.

(** C6.  Whatever the host does and whatever value is stored, a call
    changes the stored preference only through the user's answer to the
    upgrade prompt: "Ask me Later" writes [{lastNag: now}] and "Don't Ask Me
    Again" writes ['never'], once.  With any other answer (the prompt
    dismissed, or "Yes" followed by a download or an installer that fails or
    succeeds) and on every path that never reaches the prompt, no update is
    issued and the stored state is the one the call started with. *)
Theorem preference_written_only_on_choice (h : Host) (opt : UpgradeOptions) (w : World) :
  let answer := chosen_item (upgrade_reply h opt) in
  match maybeUpgradeCMake h opt w with
  | Normal _ w' | Throw _ w' =>
      preference_outcome (upgrade_reply h opt) w w' /\
      (answer <> Some askMeLater -> answer <> Some dontAskAgain ->
       globalState w' = globalState w /\
       forall k v, ~ In (GlobalStateUpdate k v) (added w w'))
  end.
Proof.
  intros answer.
  assert (Hall : forall w',
            preference_outcome (upgrade_reply h opt) w w' ->
            preference_outcome (upgrade_reply h opt) w w' /\
            (answer <> Some askMeLater -> answer <> Some dontAskAgain ->
             globalState w' = globalState w /\
             forall k v, ~ In (GlobalStateUpdate k v) (added w w'))).
  { intros w' Hout. split; [ exact Hout | ]. intros Hl Hn.
    destruct Hout as [evs [T [[G F]|[[Hc _]|[Hc _]]]]];
      [ | contradiction | contradiction ].
    split; [ exact G | ]. intros k v Hin. unfold added in Hin.
    rewrite T, drop_trace_app in Hin.
    assert (Hf : In (GlobalStateUpdate k v) (List.filter is_update evs)).
    { apply filter_In. split; [ exact Hin | reflexivity ]. }
    rewrite F in Hf. exact Hf. }
  destruct (gate_cases h opt w) as [E|[[e E]|E]]; rewrite E.
  - apply Hall, frame_outcome, frame_refl.
  - apply Hall, frame_outcome, frame_refl.
  - pose proof (check_for_upgrade_outcome h opt w) as H.
    destruct (check_for_upgrade h opt w); apply Hall, H.
Qed.

Lemma preference_written_only_on_choice_witness :
  match maybeUpgradeCMake deferring_host sample_options (world_at 1700000000000 None) with
  | Normal _ w' | Throw _ w' =>
      preference_outcome (upgrade_reply deferring_host sample_options)
        (world_at 1700000000000 None) w' /\
      (chosen_item (upgrade_reply deferring_host sample_options) <> Some askMeLater ->
       chosen_item (upgrade_reply deferring_host sample_options) <> Some dontAskAgain ->
       globalState w' = globalState (world_at 1700000000000 None) /\
       forall k v,
         ~ In (GlobalStateUpdate k v) (added (world_at 1700000000000 None) w'))
  end.
Proof.
  apply (preference_written_only_on_choice deferring_host sample_options
           (world_at 1700000000000 None)).
Defined.

(** C7.  Once the stored preference is ['never'], a call returns at once,
    whatever the host, the versions and the clock; nothing is shown and the
    stored value stays, so the same holds for every later call of any series
    of polls, however much time passes in between. *)
Theorem never_blocks_every_prompt (w : World) :
  globalState w !! UPGRADE_PREFERENCE_KEY = Some (Str "never") ->
  (forall h opt, maybeUpgradeCMake h opt w = Normal Undefined w) /\
  (forall calls,
     trace (polls calls w) = trace w /\
     globalState (polls calls w) = globalState w).
Proof.
  intros Hs. apply stored_preference_lookup in Hs. split.
  - intros h opt. apply gate_never. exact Hs.
  - intros calls. revert w Hs.
    induction calls as [|[[h opt] pause] rest IH]; intros w Hs.
    + split; reflexivity.
    + simpl. rewrite (gate_never h opt (advance pause w)).
      * apply (IH (advance pause w)). exact Hs.
      * rewrite stored_preference_advance. exact Hs.
Qed.

Lemma never_blocks_every_prompt_witness :
  let w := world_at 1700000000000 (Some (Str "never")) in
  (forall h opt, maybeUpgradeCMake h opt w = Normal Undefined w) /\
  (forall calls,
     trace (polls calls w) = trace w /\
     globalState (polls calls w) = globalState w).
Proof.
  apply (never_blocks_every_prompt (world_at 1700000000000 (Some (Str "never")))).
  reflexivity.
Defined.

(** C8.  When the [content-length] header is absent, or [parseInt] makes
    [NaN] of it, the progress handle is never called, and at end-of-stream
    the download is logged and resolves with the path of the file, which is
    on disk. *)
Theorem download_without_total_succeeds (h : Host) (url prefix postfix : string)
    (pr : ProgressHandle) (w : World) (fpath : string) (header : option string)
    (body : list nat) :
  tmp_file h prefix postfix = inr fpath ->
  https_get h url = Response 200 header body ->
  (header = None \/ exists s, header = Some s /\ parseInt s = NaN) ->
  downloadFile h url prefix postfix pr w =
    Normal fpath
      (add_event (LogInfo ("Downloaded " ++ url ++ " to " ++ fpath)) (add_file fpath w)) /\
  fpath ∈ files (add_file fpath w).
Proof.
  intros Htmp Hget Hheader.
  split; [ | simpl; apply elem_of_union_l, elem_of_singleton; reflexivity ].
  rewrite (downloadFile_ok h url prefix postfix pr w fpath header body Htmp Hget).
  unfold bind at 1. rewrite on_body_silent; [ reflexivity | ].
  destruct Hheader as [-> | [s [-> Hnan]]].
  - right. reflexivity.
  - unfold content_length_or_zero. destruct (String.eqb s "").
    + right. reflexivity.
    + left. exact Hnan.
Qed.

Lemma download_without_total_succeeds_witness :
  downloadFile chunked_host "https://cmake.org/files/cmake.sh" "cmake" ".sh"
    host_progress (world_at 1700000000000 None) =
    Normal "/tmp/cmake-3.19.2-Linux-x86_64.sh"
      (add_event
         (LogInfo ("Downloaded " ++ "https://cmake.org/files/cmake.sh" ++ " to "
                   ++ "/tmp/cmake-3.19.2-Linux-x86_64.sh"))
         (add_file "/tmp/cmake-3.19.2-Linux-x86_64.sh" (world_at 1700000000000 None))) /\
  "/tmp/cmake-3.19.2-Linux-x86_64.sh"
    ∈ files (add_file "/tmp/cmake-3.19.2-Linux-x86_64.sh" (world_at 1700000000000 None)).
Proof.
  apply (download_without_total_succeeds chunked_host
           "https://cmake.org/files/cmake.sh" "cmake" ".sh" host_progress
           (world_at 1700000000000 None) "/tmp/cmake-3.19.2-Linux-x86_64.sh"
           (Some "chunked") [40%nat; 30%nat; 30%nat]).
  - reflexivity.
  - reflexivity.
  - right. exists "chunked". split; reflexivity.
Defined.

(** C9 (as the code has it).  The stored value is used unvalidated, and
    what the gate makes of a value other than ['never'] depends only on its
    truth value and on the number its [lastNag] property coerces to.

    - A value that is falsy (so an absent one), that has no [lastNag]
      property (strings other than ['never'], numbers, booleans, arrays,
      objects without it), or whose [lastNag] coerces to [NaN] (a string
      that is not a numeric literal, a plain object) does not stop the
      gate: the call does what it does with an empty slot, settling the
      same way with the same effects, and it goes straight to the version
      comparison where the workflow runs.
    - A truthy value whose [lastNag] coerces to the number [t] ([null], a
      boolean, a numeric string) is treated as the deferral record
      [{lastNag: t}]: the call does what it does with that record in the
      slot; it returns with nothing done while [now - t] is below 48 hours
      and goes on to the version comparison afterwards. *)
Theorem stored_preference_is_unvalidated (h : Host) (opt : UpgradeOptions) (w : World) :
  strict_eq_string (stored_preference w) "never" = false ->
  ((ToBoolean (stored_preference w) = false \/
    lacks_lastNag (stored_preference w) = true \/
    ToNumber (get_lastNag (stored_preference w)) = Some NaN) ->
   same_run (maybeUpgradeCMake h opt w) (maybeUpgradeCMake h opt (forget_preference w)) /\
   (platform h = "linux" -> maybeUpgradeCMake h opt w = check_for_upgrade h opt w)) /\
  (forall t,
     ToBoolean (stored_preference w) = true ->
     ToNumber (get_lastNag (stored_preference w)) = Some (Num t) ->
     same_run (maybeUpgradeCMake h opt w)
              (maybeUpgradeCMake h opt (with_preference (UpgradeDelay t) w)) /\
     (now w - t < 48 * 60 * 60 * 1000 -> maybeUpgradeCMake h opt w = Normal Undefined w) /\
     (48 * 60 * 60 * 1000 <= now w - t -> platform h = "linux" ->
      maybeUpgradeCMake h opt w = check_for_upgrade h opt w)).
Proof.
  intros Hnever. split.
  - intros Hshape.
    assert (Hgate : passes_gate w).
    { split; [ exact Hnever | ]. destruct Hshape as [Hfalsy|[Hlacks|Hnan]].
      - left. exact Hfalsy.
      - right. exists NaN. split; [ apply lacks_lastNag_NaN, Hlacks | reflexivity ].
      - right. exists NaN. split; [ exact Hnan | reflexivity ]. }
    split.
    + destruct (String.eqb_spec (platform h) "linux") as [Hp|Hp].
      * rewrite (gate_open h opt w Hp Hgate).
        rewrite (gate_open h opt (forget_preference w) Hp (forget_passes_gate w)).
        apply oblivious_check_for_upgrade, alike_forget.
      * apply String.eqb_neq in Hp. unfold maybeUpgradeCMake. rewrite Hp. simpl.
        split; [ reflexivity | apply alike_forget ].
    + intros Hp. apply (gate_open h opt w Hp Hgate).
  - intros t Htruthy Hnum.
    change (48 * 60 * 60 * 1000) with nag_window.
    set (w' := with_preference (UpgradeDelay t) w).
    assert (Hstored : stored_preference w' = UpgradeDelay t)
      by apply stored_with_preference.
    assert (Hclosed : now w - t < nag_window ->
                      maybeUpgradeCMake h opt w = Normal Undefined w).
    { intros Hlt. apply (gate_closed h opt w (Num t) Hnever Htruthy Hnum).
      simpl. apply Z.ltb_lt. exact Hlt. }
    assert (Hopen : nag_window <= now w - t -> passes_gate w).
    { intros Hge. split; [ exact Hnever | ]. right. exists (Num t).
      split; [ exact Hnum | ]. simpl. apply Z.ltb_ge. exact Hge. }
    split; [ | split ].
    + destruct (String.eqb_spec (platform h) "linux") as [Hp|Hp].
      * destruct (Z.lt_ge_cases (now w - t) nag_window) as [Hlt|Hge].
        -- rewrite (Hclosed Hlt).
           rewrite (gate_deferred h opt w' t Hstored Hlt).
           split; [ reflexivity | apply alike_with_preference ].
        -- rewrite (gate_open h opt w Hp (Hopen Hge)).
           rewrite (gate_open h opt w' Hp (deferred_passes_gate w' t Hstored Hge)).
           apply oblivious_check_for_upgrade, alike_with_preference.
      * apply String.eqb_neq in Hp. unfold maybeUpgradeCMake. rewrite Hp. simpl.
        split; [ reflexivity | apply alike_with_preference ].
    + exact Hclosed.
    + intros Hge Hp. apply (gate_open h opt w Hp (Hopen Hge)).
Qed.

Lemma stored_preference_is_unvalidated_witness :
  let w1 := world_at 1700000000000 (Some (Obj [("lastNag", Str "yesterday")])) in
  let w2 := world_at 1700000000000 (Some (Obj [("lastNag", Str " 0x18BCFE56800 ")])) in
  (same_run (maybeUpgradeCMake deferring_host sample_options w1)
            (maybeUpgradeCMake deferring_host sample_options (forget_preference w1)) /\
   (platform deferring_host = "linux" ->
    maybeUpgradeCMake deferring_host sample_options w1
      = check_for_upgrade deferring_host sample_options w1)) /\
  maybeUpgradeCMake deferring_host sample_options w2 = Normal Undefined w2.
Proof.
  split.
  - apply (proj1 (stored_preference_is_unvalidated deferring_host sample_options
                    (world_at 1700000000000 (Some (Obj [("lastNag", Str "yesterday")])))
                    eq_refl)).
    right. right. vm_compute. reflexivity.
  - apply (proj2 (stored_preference_is_unvalidated deferring_host sample_options
                    (world_at 1700000000000
                       (Some (Obj [("lastNag", Str " 0x18BCFE56800 ")])))
                    eq_refl) 1700000000000).
    + reflexivity.
    + vm_compute. reflexivity.
    + simpl. lia.
Defined.

(** C9 as stated fails: the stored object carries [lastNag] as a string of
    digits, which is neither ['never'] nor a deferral record with a numeric
    timestamp.  The subtraction coerces it to a number far in the future,
    and the call returns at the gate with nothing done, while with an empty
    slot the same call compares the versions and prompts the user. *)
Lemma corrupt_preference_suppresses_prompt :
  corrupt_preference <> Str "never" /\
  (forall t, corrupt_preference <> UpgradeDelay t) /\
  maybeUpgradeCMake dismissing_host sample_options
    (world_at 1700000000000 (Some corrupt_preference))
    = Normal Undefined (world_at 1700000000000 (Some corrupt_preference)) /\
  maybeUpgradeCMake dismissing_host sample_options (world_at 1700000000000 None)
    = Normal Undefined
        (add_events
           [VersionLess [3; 10; 0]%N "3.19.2";
            ShowInformationMessage
              "There is a new version of CMake available. You are running 3.10.0, and 3.19.2 is available. Would you like CMake Tools to download and install this update automatically?"
              ["Yes"; "Ask me Later"; "Don't Ask Me Again"]]
           (world_at 1700000000000 None)).
Proof.
  split; [ discriminate | ]. split; [ intros t; discriminate | ].
  split; vm_compute; reflexivity.
Qed.

(** C10.  A deferral whose [lastNag] lies in the future makes the elapsed
    time negative, hence below the window: the call returns at once with
    nothing shown.  As long as the clock has not reached [lastNag], every
    call of a series of polls does the same and the record stays. *)
Theorem future_deferral_suppresses_prompt (w : World) (t : Z) :
  globalState w !! UPGRADE_PREFERENCE_KEY = Some (UpgradeDelay t) ->
  now w < t ->
  (forall h opt, maybeUpgradeCMake h opt w = Normal Undefined w) /\
  (forall calls,
     Forall (fun call => 0 <= snd call) calls ->
     now w + total_pause calls < t ->
     trace (polls calls w) = trace w /\
     globalState (polls calls w) = globalState w).
Proof.
  intros Hs Hnow. apply stored_preference_lookup in Hs. split.
  - intros h opt. apply (gate_deferred h opt w t Hs). unfold nag_window. lia.
  - intros calls. clear Hnow. revert w Hs.
    induction calls as [|[[h opt] pause] rest IH]; intros w Hs Hpos Hlate.
    + split; reflexivity.
    + inversion Hpos as [|call calls' Hpause Hrest]; subst.
      simpl in Hpause, Hlate. simpl.
      assert (Htotal : 0 <= total_pause rest).
      { clear -Hrest. induction Hrest as [|call calls' Hc _ IHc]; simpl; lia. }
      rewrite (gate_deferred h opt (advance pause w) t).
      * apply (IH (advance pause w)); [ exact Hs | exact Hrest | simpl; lia ].
      * rewrite stored_preference_advance. exact Hs.
      * unfold nag_window. simpl. lia.
Qed.

Lemma future_deferral_suppresses_prompt_witness :
  let w := world_at 1700000000000 (Some (UpgradeDelay 4102444800000)) in
  (forall h opt, maybeUpgradeCMake h opt w = Normal Undefined w) /\
  (forall calls,
     Forall (fun call => 0 <= snd call) calls ->
     now w + total_pause calls < 4102444800000 ->
     trace (polls calls w) = trace w /\
     globalState (polls calls w) = globalState w).
Proof.
  apply (future_deferral_suppresses_prompt
           (world_at 1700000000000 (Some (UpgradeDelay 4102444800000)))
           4102444800000).
  - reflexivity.
  - simpl. lia.
Defined.

(* ===================================================================== *)
(** ** Worked runs *)
(* ===================================================================== *)

(** What the subtraction of the gate makes of some [lastNag] values. *)
Example lastNag_coercions :
  map ToNumber
    [Undefined; Null; Bool true; Str ""; Str "abc"; Str " 42 "; Str "0x10";
     Str "1e3"; Str "-5"; Str "12px"; Obj []; Str "1.5"; Str "Infinity"; Arr []]
  = [Some NaN; Some (Num 0); Some (Num 1); Some (Num 0); Some NaN; Some (Num 42);
     Some (Num 16); Some (Num 1000); Some (Num (-5)); Some NaN; Some NaN;
     None; None; None].
Proof. vm_compute. reflexivity. Qed.

(** 47 hours after the last nag the call does nothing; 49 hours after it
    the versions are compared and the user is prompted. *)
Example deferred_47_hours_is_silent :
  let w := world_at (1700000000000 + 47 * 3600000) (Some (UpgradeDelay 1700000000000)) in
  maybeUpgradeCMake dismissing_host sample_options w = Normal Undefined w.
Proof. vm_compute. reflexivity. Qed.

Example deferred_49_hours_prompts :
  let w := world_at (1700000000000 + 49 * 3600000) (Some (UpgradeDelay 1700000000000)) in
  new_events w (maybeUpgradeCMake dismissing_host sample_options w) =
    [VersionLess [3; 10; 0]%N "3.19.2";
     ShowInformationMessage
       "There is a new version of CMake available. You are running 3.10.0, and 3.19.2 is available. Would you like CMake Tools to download and install this update automatically?"
       ["Yes"; "Ask me Later"; "Don't Ask Me Again"]].
Proof. vm_compute. reflexivity. Qed.

(** A 100-unit body in ten chunks of 10: every chunk is 10% of the total and
    is reported; the tenth report says 100% and nothing follows it but the
    log line. *)
Example ten_chunks_ten_reports :
  new_events (world_at 1700000000000 None)
    (download_task ten_chunks_host "https://cmake.org/files/cmake.sh"
       (world_at 1700000000000 None)) =
    [WithProgress "Downloading cmake-3.19.2-Linux-x86_64";
     ProgressReport 10 "10%"; ProgressReport 10 "20%"; ProgressReport 10 "30%";
     ProgressReport 10 "40%"; ProgressReport 10 "50%"; ProgressReport 10 "60%";
     ProgressReport 10 "70%"; ProgressReport 10 "80%"; ProgressReport 10 "90%";
     ProgressReport 10 "100%";
     LogInfo "Downloaded https://cmake.org/files/cmake.sh to /tmp/cmake-3.19.2-Linux-x86_64.sh"].
Proof. vm_compute. reflexivity. Qed.

(** "Ask me Later" stores the time of the answer; "Don't Ask Me Again"
    would store ['never']. *)
Example ask_me_later_stores_the_time :
  exists w',
    maybeUpgradeCMake deferring_host sample_options (world_at 1700000000000 None)
      = Normal Undefined w' /\
    globalState w' !! UPGRADE_PREFERENCE_KEY = Some (UpgradeDelay 1700000005000).
Proof.
  exists (written (UpgradeDelay 1700000005000)
            (answered deferring_host sample_options
               (add_event (compared sample_options) (world_at 1700000000000 None)))).
  split; [ vm_compute; reflexivity | ].
  simpl. apply lookup_insert_eq.
Qed.

(* ===================================================================== *)
(** ** Further properties of the module *)
(* ===================================================================== *)

(** *** The platform check and the stored preference *)

Lemma other_platform_returns h opt w :
  platform h <> "linux" -> maybeUpgradeCMake h opt w = Normal Undefined w.
Proof.
  intros Hp. apply String.eqb_neq in Hp.
  unfold maybeUpgradeCMake. rewrite Hp. reflexivity.
Qed.

(** X1.  On a platform other than Linux nothing happens at all: whatever is
    stored and whatever the host would answer, every call of a series of
    polls returns at once, and trace, stored state and files stay as they
    were. *)
Theorem other_platforms_do_nothing (calls : list (Host * UpgradeOptions * Z)) (w : World) :
  Forall (fun call => platform (fst (fst call)) <> "linux") calls ->
  trace (polls calls w) = trace w /\
  globalState (polls calls w) = globalState w /\
  files (polls calls w) = files w.
Proof.
  intros Hcalls. revert w.
  induction Hcalls as [|[[h opt] pause] rest Hp _ IH]; intros w.
  - repeat split.
  - simpl in Hp. simpl.
    rewrite (other_platform_returns h opt (advance pause w) Hp).
    apply (IH (advance pause w)).
Qed.

Lemma other_platforms_do_nothing_witness :
  let calls := [(on_platform deferring_host "win32", sample_options, 1000);
                (on_platform dismissing_host "darwin", sample_options, 172800000)] in
  let w := world_at 1700000000000 (Some (UpgradeDelay 0)) in
  trace (polls calls w) = trace w /\
  globalState (polls calls w) = globalState w /\
  files (polls calls w) = files w.
Proof.
  apply (other_platforms_do_nothing
           [(on_platform deferring_host "win32", sample_options, 1000);
            (on_platform dismissing_host "darwin", sample_options, 172800000)]
           (world_at 1700000000000 (Some (UpgradeDelay 0)))).
  repeat constructor; simpl; discriminate.
Defined.

(** X2.  [setUpgradePreference] and [upgradePreference] use the same slot:
    what the first stores the second reads, a later store replaces an
    earlier one, and no other key of the global state is touched. *)
Theorem preference_round_trip (v1 v2 : value) (w : World) :
  bind (setUpgradePreference v1) (fun _ => upgradePreference) w
    = Normal v1 (written v1 w) /\
  bind (setUpgradePreference v1)
       (fun _ => bind (setUpgradePreference v2) (fun _ => upgradePreference)) w
    = Normal v2 (written v2 (written v1 w)) /\
  forall key, key <> UPGRADE_PREFERENCE_KEY ->
    globalState (written v1 w) !! key = globalState w !! key.
Proof.
  split; [ | split ].
  - unfold bind, setUpgradePreference, globalState_update, bind, emit,
      upgradePreference, globalState_get.
    simpl. rewrite lookup_insert_eq. reflexivity.
  - unfold bind, setUpgradePreference, globalState_update, bind, emit,
      upgradePreference, globalState_get.
    simpl. rewrite lookup_insert_eq. reflexivity.
  - intros key Hkey. simpl. apply lookup_insert_ne. congruence.
Qed.

(** The three ways out of the gate, with what each one tells. *)
Lemma gate_outcomes h opt w :
  maybeUpgradeCMake h opt w = Normal Undefined w \/
  (exists e,
     maybeUpgradeCMake h opt w = Throw e w /\
     ToNumber (get_lastNag (stored_preference w)) = None /\
     engine_less_than h (get_lastNag (stored_preference w)) (now w) nag_window = inl e) \/
  (platform h = "linux" /\
   strict_eq_string (stored_preference w) "never" = false /\
   maybeUpgradeCMake h opt w = check_for_upgrade h opt w).
Proof.
  remember (maybeUpgradeCMake h opt w) as r eqn:E.
  unfold maybeUpgradeCMake in E.
  destruct (String.eqb_spec (platform h) "linux") as [Hp|Hp];
    [ | left; exact E ].
  simpl in E. unfold bind at 1 in E. unfold upgradePreference, globalState_get in E.
  fold (stored_preference w) in E.
  destruct (strict_eq_string (stored_preference w) "never") eqn:Hnever;
    [ left; exact E | ].
  destruct (ToBoolean (stored_preference w));
    [ | right; right; split; [ exact Hp | split; [ reflexivity | exact E ] ] ].
  unfold bind, nagged_recently, bind, Date_getTime in E.
  destruct (ToNumber (get_lastNag (stored_preference w))) as [lastNag|] eqn:Hnum.
  - unfold ret in E.
    destruct (lt (sub (Num (now w)) lastNag) (Num nag_window));
      [ left; exact E | right; right; split; [ exact Hp | split; [ reflexivity | exact E ] ] ].
  - destruct (engine_less_than h (get_lastNag (stored_preference w)) (now w) nag_window)
      as [e|[|]] eqn:Hengine.
    + right. left. exists e. split; [ exact E | split; reflexivity ].
    + left. exact E.
    + right. right. split; [ exact Hp | split; [ reflexivity | exact E ] ].
Qed.

Lemma stored_preference_written v w : stored_preference (written v w) = v.
Proof. unfold stored_preference. simpl. rewrite lookup_insert_eq. reflexivity. Qed.

Lemma polls_after_never calls :
  forall w,
    stored_preference w = Str "never" ->
    trace (polls calls w) = trace w /\ globalState (polls calls w) = globalState w.
Proof.
  induction calls as [|[[h opt] pause] rest IH]; intros w Hs.
  - split; reflexivity.
  - simpl. rewrite (gate_never h opt (advance pause w)).
    + apply (IH (advance pause w)). exact Hs.
    + rewrite stored_preference_advance. exact Hs.
Qed.

(** X3.  "Ask me Later" and the gate compose: when a call reaches the
    prompt and the user answers "Ask me Later", the time of the answer is
    stored, and a later call made less than 48 hours after that answer does
    nothing, while one made 48 hours or more after it goes on to compare the
    versions again. *)
Theorem ask_me_later_defers_48_hours (h : Host) (opt : UpgradeOptions) (w : World) :
  platform h = "linux" ->
  passes_gate w ->
  versionLess h (currentVersion opt) (version (available opt)) = inr true ->
  chosen_item (upgrade_reply h opt) = Some askMeLater ->
  exists w1,
    maybeUpgradeCMake h opt w = Normal Undefined w1 /\
    stored_preference w1 = UpgradeDelay (now w + after_ms (upgrade_reply h opt)) /\
    forall h' opt' pause,
      (pause < 48 * 60 * 60 * 1000 ->
       maybeUpgradeCMake h' opt' (advance pause w1) = Normal Undefined (advance pause w1)) /\
      (48 * 60 * 60 * 1000 <= pause -> platform h' = "linux" ->
       maybeUpgradeCMake h' opt' (advance pause w1)
         = check_for_upgrade h' opt' (advance pause w1)).
Proof.
  intros Hp Hgate Hless Hlater.
  set (t := now w + after_ms (upgrade_reply h opt)).
  exists (written (UpgradeDelay t) (answered h opt (add_event (compared opt) w))).
  assert (Hnow : now (written (UpgradeDelay t)
                        (answered h opt (add_event (compared opt) w))) = t)
    by reflexivity.
  split; [ | split ].
  - rewrite (gate_open h opt w Hp Hgate), (check_for_upgrade_less h opt w Hless).
    apply (prompt_later h opt (add_event (compared opt) w) Hlater).
  - apply stored_preference_written.
  - intros h' opt' pause. split.
    + intros Hshort. apply (gate_deferred h' opt' _ t).
      * rewrite stored_preference_advance. apply stored_preference_written.
      * simpl. fold t. unfold nag_window. lia.
    + intros Hlong Hp'. apply (gate_open h' opt' _ Hp').
      apply (deferred_passes_gate _ t).
      * rewrite stored_preference_advance. apply stored_preference_written.
      * simpl. fold t. unfold nag_window. lia.
Qed.

Lemma ask_me_later_defers_48_hours_witness :
  exists w1,
    maybeUpgradeCMake deferring_host sample_options (world_at 1700000000000 None)
      = Normal Undefined w1 /\
    stored_preference w1
      = UpgradeDelay (now (world_at 1700000000000 None)
                      + after_ms (upgrade_reply deferring_host sample_options)) /\
    forall h' opt' pause,
      (pause < 48 * 60 * 60 * 1000 ->
       maybeUpgradeCMake h' opt' (advance pause w1) = Normal Undefined (advance pause w1)) /\
      (48 * 60 * 60 * 1000 <= pause -> platform h' = "linux" ->
       maybeUpgradeCMake h' opt' (advance pause w1)
         = check_for_upgrade h' opt' (advance pause w1)).
Proof.
  apply (ask_me_later_defers_48_hours deferring_host sample_options
           (world_at 1700000000000 None)).
  - reflexivity.
  - apply unset_passes_gate.
  - reflexivity.
  - reflexivity.
Defined.

(** X4.  "Don't Ask Me Again" is final: when a call reaches the prompt and
    the user gives that answer, ['never'] is stored, and no later call of
    any series of polls, on any host and at any time, adds an event or
    changes the stored state. *)
Theorem dont_ask_again_is_final (h : Host) (opt : UpgradeOptions) (w : World) :
  platform h = "linux" ->
  passes_gate w ->
  versionLess h (currentVersion opt) (version (available opt)) = inr true ->
  chosen_item (upgrade_reply h opt) = Some dontAskAgain ->
  exists w1,
    maybeUpgradeCMake h opt w = Normal Undefined w1 /\
    stored_preference w1 = Str "never" /\
    forall calls,
      trace (polls calls w1) = trace w1 /\
      globalState (polls calls w1) = globalState w1.
Proof.
  intros Hp Hgate Hless Hnever.
  exists (written (Str "never") (answered h opt (add_event (compared opt) w))).
  split; [ | split ].
  - rewrite (gate_open h opt w Hp Hgate), (check_for_upgrade_less h opt w Hless).
    apply (prompt_never h opt (add_event (compared opt) w) Hnever).
  - apply stored_preference_written.
  - intros calls. apply polls_after_never, stored_preference_written.
Qed.

Lemma dont_ask_again_is_final_witness :
  exists w1,
    maybeUpgradeCMake refusing_host sample_options (world_at 1700000000000 None)
      = Normal Undefined w1 /\
    stored_preference w1 = Str "never" /\
    forall calls,
      trace (polls calls w1) = trace w1 /\
      globalState (polls calls w1) = globalState w1.
Proof.
  apply (dont_ask_again_is_final refusing_host sample_options
           (world_at 1700000000000 None)).
  - reflexivity.
  - apply unset_passes_gate.
  - reflexivity.
  - reflexivity.
Defined.

(** *** What [installLinux] does, case by case *)

Lemma on_body_reports_only totalSize body :
  forall st w,
    exists st' evs,
      on_body host_progress totalSize st body w = Normal st' (add_events evs w) /\
      Forall (fun ev => is_progress_report ev = true) evs.
Proof.
  induction body as [|data_length rest IH]; intros st w.
  - exists st, []. rewrite add_events_nil. split; [ reflexivity | constructor ].
  - assert (Hstep : exists st1 evs1,
              on_data host_progress totalSize st data_length w
                = Normal st1 (add_events evs1 w) /\
              Forall (fun ev => is_progress_report ev = true) evs1).
    { unfold on_data.
      destruct (strict_neq_zero totalSize);
        [ | eexists; exists []; rewrite add_events_nil; split;
            [ reflexivity | constructor ] ].
      destruct (exceeds_one _);
        [ | eexists; exists []; rewrite add_events_nil; split;
            [ reflexivity | constructor ] ].
      destruct (percent _ totalSize) as [increment|];
        [ | eexists; exists []; rewrite add_events_nil; split;
            [ reflexivity | constructor ] ].
      destruct (percent _ totalSize) as [total|];
        [ | eexists; exists []; rewrite add_events_nil; split;
            [ reflexivity | constructor ] ].
      eexists. eexists [_]. split; [ reflexivity | ].
      constructor; [ reflexivity | constructor ]. }
    destruct Hstep as [st1 [evs1 [Hstep F1]]].
    destruct (IH st1 (add_events evs1 w)) as [st2 [evs2 [Hrun F2]]].
    exists st2, (evs1 ++ evs2)%list. simpl. unfold bind. rewrite Hstep, Hrun.
    split.
    + unfold add_events. simpl. rewrite <- app_assoc. reflexivity.
    + apply Forall_app. split; assumption.
Qed.

Lemma report_is_download_event evs :
  Forall (fun ev => is_progress_report ev = true) evs ->
  Forall (fun ev => is_download_event ev = true) evs.
Proof.
  induction 1 as [|ev evs Hev _ IH]; constructor; [ | exact IH ].
  destruct ev; try discriminate Hev; reflexivity.
Qed.

(** The download step only shows progress, reports and logs; when it
    resolves, the path is the temporary file and the response was a 200. *)
Lemma download_task_events h url w :
  match download_task h url w with
  | Normal path w' =>
      (exists evs, trace w' = (trace w ++ evs)%list /\
                   Forall (fun ev => is_download_event ev = true) evs) /\
      tmp_file h (basename h url ".sh") ".sh" = inr path /\
      exists header body, https_get h url = Response 200 header body
  | Throw _ w' =>
      exists evs, trace w' = (trace w ++ evs)%list /\
                  Forall (fun ev => is_download_event ev = true) evs
  end.
Proof.
  rewrite download_task_unfold.
  set (started := WithProgress ("Downloading " ++ basename h url ".sh")).
  assert (Hstart : Forall (fun ev => is_download_event ev = true) [started]).
  { constructor; [ reflexivity | constructor ]. }
  unfold downloadFile.
  destruct (tmp_file h (basename h url ".sh") ".sh") as [err|fpath].
  { exists [started]. split; [ reflexivity | exact Hstart ]. }
  unfold bind at 1, create_file.
  destruct (https_get h url) as [e|e|statusCode header body].
  - exists [started]. split; [ reflexivity | exact Hstart ].
  - exists [started]. split; [ reflexivity | exact Hstart ].
  - destruct (Z.eqb_spec statusCode 200) as [->|Hcode]; simpl.
    + destruct (on_body_reports_only (parseInt (content_length_or_zero header)) body
                  {| prevDownloaded := 0; totalDownloaded := 0 |}
                  (add_file fpath (add_event started w)))
        as [st [evs [Hbody Hevs]]].
      unfold bind at 1. rewrite Hbody. simpl.
      split; [ | split; [ reflexivity | exists header, body; reflexivity ] ].
      exists (started :: evs ++ [downloaded_message url fpath])%list. split.
      * rewrite <- !app_assoc. reflexivity.
      * constructor; [ reflexivity | ].
        apply Forall_app. split; [ apply report_is_download_event, Hevs | ].
        constructor; [ reflexivity | constructor ].
    + exists [started]. split; [ reflexivity | exact Hstart ].
Qed.

Lemma pkexec_found_dec h :
  (which h "pkexec" = None \/ which h "pkexec" = Some "") \/
  exists pkexec, pkexec_found h pkexec.
Proof.
  destruct (which h "pkexec") as [pkexec|] eqn:Hwhich; [ | left; left; reflexivity ].
  destruct (String.eqb_spec pkexec "") as [->|Hne].
  - left. right. reflexivity.
  - right. exists pkexec. split; [ exact Hwhich | exact Hne ].
Qed.

(** [installLinux] has three ways to end: [pkexec] is missing and only the
    error notification is shown; the download rejects and so does
    [installLinux], at once; or the download resolves, the installer is run
    on the downloaded file, and what follows depends on the exit code. *)
Lemma installLinux_cases h url w :
  ((which h "pkexec" = None \/ which h "pkexec" = Some "") /\
   installLinux h url w = Normal tt (add_event pkexec_missing w)) \/
  (exists pkexec e w1,
     pkexec_found h pkexec /\
     download_task h url w = Throw e w1 /\
     installLinux h url w = Throw e w1) \/
  (exists pkexec path w1 w' tail,
     pkexec_found h pkexec /\
     download_task h url w = Normal path w1 /\
     installLinux h url w = Normal tt w' /\
     trace w' =
       (trace w1 ++ WithProgress "Running CMake Installer"
                 :: Execute pkexec (installer_args path) :: tail)%list /\
     (forall c a, ~ In (Execute c a) tail) /\
     (forall command,
        In (ExecuteCommand command) tail <->
        command = "workbench.action.reloadWindow" /\
        retc (execute h pkexec (installer_args path)) = 0 /\
        chosen_item (restart_reply h) = Some "Restart Now")).
Proof.
  destruct (pkexec_found_dec h) as [Hmissing|[pkexec [Hwhich Hne]]].
  - left. split; [ exact Hmissing | ]. unfold installLinux.
    destruct Hmissing as [-> | ->]; reflexivity.
  - right.
    destruct (download_task h url w) as [path w1|e w1] eqn:Hdl.
    + right.
      pose proof (installLinux_after_download h url w pkexec path w1
                    Hwhich Hne Hdl) as E.
      cbv zeta in E. fold (installer_args path) in E.
      set (res := execute h pkexec (installer_args path)) in *.
      set (ran := add_event (Execute pkexec (installer_args path))
                    (add_event (WithProgress "Running CMake Installer") w1)) in *.
      assert (Hran : forall tail,
                (trace ran ++ tail)%list =
                (trace w1 ++ WithProgress "Running CMake Installer"
                          :: Execute pkexec (installer_args path) :: tail)%list).
      { intros tail. unfold ran. simpl. rewrite <- !app_assoc. reflexivity. }
      destruct (Z.eqb_spec (retc res) 127) as [H127|H127].
      { exists pkexec, path, w1. eexists. eexists [_].
        split; [ split; assumption | ]. split; [ reflexivity | ].
        split; [ exact E | ]. split; [ apply Hran | ]. split.
        - intros c a [H|[]]. discriminate H.
        - intros command. split.
          + intros [H|[]]. discriminate H.
          + intros [_ [H0 _]]. fold res in H0. lia. }
      destruct (Z.eqb_spec (retc res) 126) as [H126|H126].
      { exists pkexec, path, w1. eexists. eexists [_].
        split; [ split; assumption | ]. split; [ reflexivity | ].
        split; [ exact E | ]. split; [ apply Hran | ]. split.
        - intros c a [H|[]]. discriminate H.
        - intros command. split.
          + intros [H|[]]. discriminate H.
          + intros [_ [H0 _]]. fold res in H0. lia. }
      destruct (Z.eqb_spec (retc res) 0) as [H0|H0]; simpl in E.
      * unfold bind, showInformationMessage, bind in E. simpl in E.
        fold success_message in E. fold (restart_reply h) in E.
        destruct (chosen_item (restart_reply h)) as [c|] eqn:Hchosen.
        -- destruct (String.eqb_spec c "Restart Now") as [->|Hother].
           ++ exists pkexec, path, w1. eexists. eexists [_; _].
              split; [ split; assumption | ]. split; [ reflexivity | ].
              split; [ exact E | ]. split.
              { simpl. rewrite <- !app_assoc. reflexivity. }
              split.
              ** intros c a [H|[H|[]]]; discriminate H.
              ** intros command. split.
                 --- intros [H|[H|[]]]; [ discriminate H | ].
                     injection H as <-. repeat split. exact H0.
                 --- intros [-> _]. right. left. reflexivity.
           ++ exists pkexec, path, w1. eexists. eexists [_].
              split; [ split; assumption | ]. split; [ reflexivity | ].
              split; [ exact E | ]. split.
              { simpl. rewrite <- !app_assoc. reflexivity. }
              split.
              ** intros c' a [H|[]]. discriminate H.
              ** intros command. split.
                 --- intros [H|[]]. discriminate H.
                 --- intros [_ [_ H]]. congruence.
        -- exists pkexec, path, w1. eexists. eexists [_].
           split; [ split; assumption | ]. split; [ reflexivity | ].
           split; [ exact E | ]. split.
           { simpl. rewrite <- !app_assoc. reflexivity. }
           split.
           ++ intros c a [H|[]]. discriminate H.
           ++ intros command. split.
              ** intros [H|[]]. discriminate H.
              ** intros [_ [_ H]]. discriminate H.
      * exists pkexec, path, w1. eexists. eexists [_; _].
        split; [ split; assumption | ]. split; [ reflexivity | ].
        split; [ exact E | ]. split.
        { simpl. rewrite <- !app_assoc. reflexivity. }
        split.
        -- intros c a [H|[H|[]]]; discriminate H.
        -- intros command. split.
           ++ intros [H|[H|[]]]; discriminate H.
           ++ intros [_ [H _]]. fold res in H. contradiction.
    + left. exists pkexec, e, w1. split; [ split; assumption | ].
      split; [ reflexivity | ].
      apply String.eqb_neq in Hne.
      unfold installLinux. rewrite Hwhich, Hne. unfold bind at 1.
      change (withProgress h ("Downloading " ++ basename h url ".sh")
                (fun pr _ => downloadFile h url (basename h url ".sh") ".sh" pr) w)
        with (download_task h url w).
      rewrite Hdl. reflexivity.
Qed.

(** *** What a call does, case by case *)

Lemma added_app w w' evs : trace w' = (trace w ++ evs)%list -> added w w' = evs.
Proof. intros H. unfold added. rewrite H. apply drop_trace_app. Qed.

Lemma added_same w : added w w = [].
Proof. apply added_app. symmetry. apply app_nil_r. Qed.

Lemma prompt_consented h opt w c :
  chosen_item (upgrade_reply h opt) = Some c ->
  c <> dontAskAgain -> c <> askMeLater ->
  platform h = "linux" ->
  prompt_and_upgrade h opt w =
    bind (installLinux h (linuxURL (available opt))) (fun _ => ret Undefined)
      (consented h opt c w).
Proof.
  intros Hc Hn Hl Hp.
  apply String.eqb_neq in Hn. apply String.eqb_neq in Hl.
  unfold prompt_and_upgrade, bind at 1, showInformationMessage, bind at 1 2.
  simpl. fold upgrade_items. fold (upgrade_reply h opt).
  rewrite Hc, Hn, Hl, (linux_platform h Hp). unfold consented.
  fold (answered h opt w).
  destruct (String.eqb c doTheUpgrade); reflexivity.
Qed.

(** Either a call stays within the eligibility check, and then it prompts
    only when it runs on Linux, the stored value is not ['never'] and the
    advertised version is newer; or the user consented and the call is
    [installLinux] started right after the answer. *)
Lemma upgrade_cases h opt w :
  (Forall (fun ev => is_eligibility_event ev = true)
          (new_events w (maybeUpgradeCMake h opt w)) /\
   (forall e w', maybeUpgradeCMake h opt w = Throw e w' ->
      w' = w /\
      ToNumber (get_lastNag (stored_preference w)) = None /\
      engine_less_than h (get_lastNag (stored_preference w)) (now w) nag_window = inl e) /\
   (In (upgrade_prompt h opt) (new_events w (maybeUpgradeCMake h opt w)) ->
    platform h = "linux" /\
    versionLess h (currentVersion opt) (version (available opt)) = inr true /\
    stored_preference w <> Str "never")) \/
  (exists c,
     consent h opt c /\
     stored_preference w <> Str "never" /\
     maybeUpgradeCMake h opt w =
       bind (installLinux h (linuxURL (available opt))) (fun _ => ret Undefined)
         (consented h opt c (add_event (compared opt) w))).
Proof.
  destruct (gate_outcomes h opt w) as [E|[[e [E [Hnum Hengine]]]|[Hp [Hnever E]]]].
  - left. rewrite E. unfold new_events. rewrite added_same.
    split; [ constructor | ]. split; [ discriminate | intros [] ].
  - left. rewrite E. unfold new_events. rewrite added_same.
    split; [ constructor | ]. split; [ | intros [] ].
    intros e' w' H. injection H as <- <-. repeat split; assumption.
  - assert (Hpref : stored_preference w <> Str "never").
    { intros H. rewrite H in Hnever. discriminate Hnever. }
    rewrite E.
    destruct (versionLess h (currentVersion opt) (version (available opt)))
      as [e|[|]] eqn:Hv.
    + left. rewrite (check_for_upgrade_throws h opt w e Hv).
      destruct (instanceof_InvalidVersionString e); unfold new_events.
      * rewrite (added_app w _ [compared opt]) by reflexivity.
        split; [ repeat constructor | ]. split; [ discriminate | ].
        intros [H|[]]. discriminate H.
      * rewrite (added_app w _ [compared opt; reported e])
          by (simpl; rewrite <- app_assoc; reflexivity).
        split; [ repeat constructor | ]. split; [ discriminate | ].
        intros [H|[H|[]]]; discriminate H.
    + rewrite (check_for_upgrade_less h opt w Hv).
      set (w0 := add_event (compared opt) w).
      destruct (chosen_item (upgrade_reply h opt)) as [c|] eqn:Hc.
      * destruct (String.eqb_spec c dontAskAgain) as [->|Hn].
        { left. rewrite (prompt_never h opt w0 Hc). unfold new_events.
          rewrite (added_app w _
                     [compared opt; upgrade_prompt h opt;
                      GlobalStateUpdate UPGRADE_PREFERENCE_KEY (Str "never")])
            by (simpl; rewrite <- !app_assoc; reflexivity).
          split; [ repeat constructor | ]. split; [ discriminate | ].
          intros _. repeat split; assumption. }
        destruct (String.eqb_spec c askMeLater) as [->|Hl].
        { left. rewrite (prompt_later h opt w0 Hc). unfold new_events.
          rewrite (added_app w _
                     [compared opt; upgrade_prompt h opt;
                      GlobalStateUpdate UPGRADE_PREFERENCE_KEY
                        (UpgradeDelay (now w0 + after_ms (upgrade_reply h opt)))])
            by (simpl; rewrite <- !app_assoc; reflexivity).
          split; [ repeat constructor | ]. split; [ discriminate | ].
          intros _. repeat split; assumption. }
        right. exists c. split; [ repeat split; assumption | ].
        split; [ exact Hpref | ].
        apply (prompt_consented h opt w0 c Hc Hn Hl Hp).
      * left. rewrite (prompt_dismissed h opt w0 Hc). unfold new_events.
        rewrite (added_app w _ [compared opt; upgrade_prompt h opt])
          by (simpl; rewrite <- !app_assoc; reflexivity).
        split; [ repeat constructor | ]. split; [ discriminate | ].
        intros _. repeat split; assumption.
    + left. rewrite (check_for_upgrade_not_less h opt w Hv). unfold new_events.
      rewrite (added_app w _ [compared opt]) by reflexivity.
      split; [ repeat constructor | ]. split; [ discriminate | ].
      intros [H|[]]. discriminate H.
Qed.

(** *** Eligibility, consent and rejection *)

Lemma installLinux_extends h url : respects extends (installLinux h url).
Proof.
  apply respects_installLinux.
  - apply extends_refl.
  - apply extends_trans.
  - intros ev w _. apply extends_event.
  - intros ms w. exists []. symmetry. apply app_nil_r.
  - intros path w. exists []. symmetry. apply app_nil_r.
Qed.

Lemma prompt_comes_first h opt w :
  exists rest, new_events w (prompt_and_upgrade h opt w) = upgrade_prompt h opt :: rest.
Proof.
  pose proof (prompt_and_upgrade_extends h opt w) as Hext.
  destruct (chosen_item (upgrade_reply h opt)) as [c|] eqn:Hc.
  - destruct (String.eqb_spec c dontAskAgain) as [->|Hn].
    { rewrite (prompt_never h opt w Hc). eexists. unfold new_events.
      apply added_app. simpl. rewrite <- !app_assoc. reflexivity. }
    destruct (String.eqb_spec c askMeLater) as [->|Hl].
    { rewrite (prompt_later h opt w Hc). eexists. unfold new_events.
      apply added_app. simpl. rewrite <- !app_assoc. reflexivity. }
    assert (Hstart : exists evs,
              trace (consented h opt c w) = (trace w ++ upgrade_prompt h opt :: evs)%list).
    { unfold consented. destruct (String.eqb c doTheUpgrade).
      - exists []. reflexivity.
      - exists [ConsoleAssertFailed]. simpl. rewrite <- app_assoc. reflexivity. }
    destruct Hstart as [evs Hstart].
    assert (Hrest : respects extends
              (if String.eqb (platform h) "linux"
               then bind (installLinux h (linuxURL (available opt)))
                         (fun _ => ret Undefined)
               else ret Undefined)).
    { destruct (String.eqb (platform h) "linux").
      - apply respects_bind; [ apply extends_trans | apply installLinux_extends | ].
        intros _ w1. apply extends_refl.
      - intros w1. apply extends_refl. }
    assert (E : prompt_and_upgrade h opt w =
                (if String.eqb (platform h) "linux"
                 then bind (installLinux h (linuxURL (available opt)))
                           (fun _ => ret Undefined)
                 else ret Undefined) (consented h opt c w)).
    { apply String.eqb_neq in Hn. apply String.eqb_neq in Hl.
      unfold prompt_and_upgrade, bind at 1, showInformationMessage, bind at 1 2.
      simpl. fold upgrade_items. fold (upgrade_reply h opt).
      rewrite Hc, Hn, Hl. unfold consented. fold (answered h opt w).
      destruct (String.eqb c doTheUpgrade); reflexivity. }
    rewrite E. specialize (Hrest (consented h opt c w)).
    destruct ((if String.eqb (platform h) "linux"
               then bind (installLinux h (linuxURL (available opt)))
                         (fun _ => ret Undefined)
               else ret Undefined) (consented h opt c w)) as [v w'|e w'];
      destruct Hrest as [more Hmore]; exists (evs ++ more)%list;
      unfold new_events; apply added_app;
      rewrite Hmore, Hstart, <- app_assoc; reflexivity.
  - rewrite (prompt_dismissed h opt w Hc). exists []. unfold new_events.
    apply added_app. reflexivity.
Qed.

(** X5.  The user is prompted only for a newer version: if the upgrade
    prompt is among the effects of a call, then the call ran on Linux, the
    stored preference was not ['never'] and [versionLess] returned true.
    Conversely, when these hold and the stored value lets the call through
    the gate, the call compares the versions and the prompt is the very next
    effect. *)
Theorem prompt_only_for_newer_version (h : Host) (opt : UpgradeOptions) (w : World) :
  (In (upgrade_prompt h opt) (new_events w (maybeUpgradeCMake h opt w)) ->
   platform h = "linux" /\
   versionLess h (currentVersion opt) (version (available opt)) = inr true /\
   stored_preference w <> Str "never") /\
  (platform h = "linux" -> passes_gate w ->
   versionLess h (currentVersion opt) (version (available opt)) = inr true ->
   exists rest,
     new_events w (maybeUpgradeCMake h opt w)
       = VersionLess (currentVersion opt) (version (available opt))
         :: upgrade_prompt h opt :: rest).
Proof.
  split.
  - intros Hin.
    destruct (upgrade_cases h opt w) as [[_ [_ H]]|[c [[Hp [Hv _]] [Hpref _]]]].
    + apply H, Hin.
    + repeat split; assumption.
  - intros Hp Hgate Hv.
    rewrite (gate_open h opt w Hp Hgate), (check_for_upgrade_less h opt w Hv).
    destruct (prompt_comes_first h opt (add_event (compared opt) w)) as [rest Hrest].
    exists rest. unfold new_events in *.
    pose proof (prompt_and_upgrade_extends h opt (add_event (compared opt) w)) as Hext.
    destruct (prompt_and_upgrade h opt (add_event (compared opt) w)) as [v w'|e w'];
      destruct Hext as [evs Hevs];
      rewrite (added_app _ _ evs Hevs) in Hrest; subst evs;
      apply added_app; rewrite Hevs; simpl; rewrite <- app_assoc; reflexivity.
Qed.

Lemma prompt_only_for_newer_version_witness :
  let w := world_at 1700000000000 None in
  (In (upgrade_prompt dismissing_host sample_options)
      (new_events w (maybeUpgradeCMake dismissing_host sample_options w)) ->
   platform dismissing_host = "linux" /\
   versionLess dismissing_host (currentVersion sample_options)
     (version (available sample_options)) = inr true /\
   stored_preference w <> Str "never") /\
  (platform dismissing_host = "linux" -> passes_gate w ->
   versionLess dismissing_host (currentVersion sample_options)
     (version (available sample_options)) = inr true ->
   exists rest,
     new_events w (maybeUpgradeCMake dismissing_host sample_options w)
       = VersionLess (currentVersion sample_options) (version (available sample_options))
         :: upgrade_prompt dismissing_host sample_options :: rest).
Proof.
  apply (prompt_only_for_newer_version dismissing_host sample_options
           (world_at 1700000000000 None)).
Defined.

(** X6.  Nothing is installed without consent: any effect of a call other
    than those of the eligibility check (the comparison, the report to the
    error sink, the upgrade prompt, the update of the stored preference),
    and so any download, any run of the installer and any reload of the
    window, happens only after the user answered the upgrade prompt of an
    eligible call with something other than "Ask me Later" and "Don't Ask
    Me Again". *)
Theorem nothing_installed_without_consent (h : Host) (opt : UpgradeOptions)
    (w : World) (ev : Event) :
  In ev (new_events w (maybeUpgradeCMake h opt w)) ->
  is_eligibility_event ev = false ->
  exists c, consent h opt c /\ stored_preference w <> Str "never".
Proof.
  intros Hin Hev.
  destruct (upgrade_cases h opt w) as [[Hall _]|[c [Hconsent [Hpref _]]]].
  - rewrite Stdlib.Lists.List.Forall_forall in Hall. specialize (Hall ev Hin). congruence.
  - exists c. split; assumption.
Qed.

Lemma nothing_installed_without_consent_witness :
  exists c,
    consent (accepting_host (Response 200 (Some "100") [100%nat]) 0) sample_options c /\
    stored_preference (world_at 1700000000000 None) <> Str "never".
Proof.
  apply (nothing_installed_without_consent
           (accepting_host (Response 200 (Some "100") [100%nat]) 0) sample_options
           (world_at 1700000000000 None)
           (Execute "/usr/bin/pkexec"
              (installer_args "/tmp/cmake-3.19.2-Linux-x86_64.sh"))).
  - vm_compute. tauto.
  - reflexivity.
Defined.

Lemma upgrade_after_consent h opt w c :
  consent h opt c -> passes_gate w ->
  maybeUpgradeCMake h opt w =
    bind (installLinux h (linuxURL (available opt))) (fun _ => ret Undefined)
      (consented h opt c (add_event (compared opt) w)).
Proof.
  intros [Hp [Hv [Hc [Hn Hl]]]] Hgate.
  rewrite (gate_open h opt w Hp Hgate), (check_for_upgrade_less h opt w Hv).
  apply (prompt_consented h opt _ c Hc Hn Hl Hp).
Qed.

(** X7.  Without [pkexec] an accepted upgrade stops at the error
    notification: the call resolves, and beyond the comparison, the prompt
    and that notification nothing happens: no download is started, no file
    is created and the stored preference is not changed. *)
Theorem missing_pkexec_stops_upgrade (h : Host) (opt : UpgradeOptions) (w : World)
    (c : string) :
  consent h opt c ->
  passes_gate w ->
  which h "pkexec" = None \/ which h "pkexec" = Some "" ->
  let w' := add_event pkexec_missing (consented h opt c (add_event (compared opt) w)) in
  maybeUpgradeCMake h opt w = Normal Undefined w' /\
  files w' = files w /\
  globalState w' = globalState w /\
  forall ev, In ev (added w w') ->
    is_download_event ev = false /\ forall command args, ev <> Execute command args.
Proof.
  intros Hconsent Hgate Hmissing w'.
  split; [ | split; [ | split ] ].
  - rewrite (upgrade_after_consent h opt w c Hconsent Hgate).
    unfold bind, installLinux. destruct Hmissing as [-> | ->]; reflexivity.
  - unfold w', consented. destruct (String.eqb c doTheUpgrade); reflexivity.
  - unfold w', consented. destruct (String.eqb c doTheUpgrade); reflexivity.
  - intros ev Hin.
    assert (Hevs : exists evs,
              added w w' = evs /\
              Forall (fun ev => is_download_event ev = false /\
                                forall command args, ev <> Execute command args) evs).
    { unfold w', consented. destruct (String.eqb c doTheUpgrade).
      - eexists. split.
        + apply added_app. simpl. rewrite <- !app_assoc. reflexivity.
        + repeat constructor; discriminate.
      - eexists. split.
        + apply added_app. simpl. rewrite <- !app_assoc. reflexivity.
        + repeat constructor; discriminate. }
    destruct Hevs as [evs [Heq Hall]]. rewrite Heq in Hin.
    rewrite Stdlib.Lists.List.Forall_forall in Hall. apply Hall, Hin.
Qed.

Lemma missing_pkexec_stops_upgrade_witness :
  let h := without_pkexec (accepting_host (Response 200 (Some "100") [100%nat]) 0) in
  let w := world_at 1700000000000 None in
  let w' :=
    add_event pkexec_missing
      (consented h sample_options doTheUpgrade (add_event (compared sample_options) w)) in
  maybeUpgradeCMake h sample_options w = Normal Undefined w' /\
  files w' = files w /\
  globalState w' = globalState w /\
  forall ev, In ev (added w w') ->
    is_download_event ev = false /\ forall command args, ev <> Execute command args.
Proof.
  apply (missing_pkexec_stops_upgrade
           (without_pkexec (accepting_host (Response 200 (Some "100") [100%nat]) 0))
           sample_options (world_at 1700000000000 None) doTheUpgrade).
  - repeat split; discriminate.
  - apply unset_passes_gate.
  - left. reflexivity.
Defined.

(** X8.  [installLinux] rejects exactly when the download does, with the
    same exception and in the world the download left: a missing [pkexec]
    and an installer that fails are shown to the user and never rejected. *)
Theorem installLinux_rejects_with_download (h : Host) (url : string) (w : World)
    (e : Exception) (w' : World) :
  installLinux h url w = Throw e w' <->
  (exists pkexec, pkexec_found h pkexec) /\ download_task h url w = Throw e w'.
Proof.
  destruct (installLinux_cases h url w)
    as [[Hmissing E]|[[pkexec [e1 [w1 [Hfound [Hdl E]]]]]
                     |[pkexec [path [w1 [w2 [tail [Hfound [Hdl [E _]]]]]]]]]].
  - rewrite E. split; [ discriminate | ].
    intros [[pkexec [Hwhich Hne]] _]. exfalso.
    destruct Hmissing as [H|H]; rewrite H in Hwhich; [ discriminate | ].
    injection Hwhich as <-. apply Hne. reflexivity.
  - rewrite E, Hdl. split.
    + intros H. injection H as <- <-.
      split; [ exists pkexec; exact Hfound | reflexivity ].
    + intros [_ H]. injection H as <- <-. reflexivity.
  - rewrite E, Hdl. split; [ discriminate | intros [_ H]; discriminate H ].
Qed.

Lemma installLinux_rejects_with_download_witness :
  installLinux not_found_host "https://cmake.org/files/cmake.sh"
    (world_at 1700000000000 None)
  = Throw (Error "Non-200 response when downloading new CMake installer")
      (add_file "/tmp/cmake-3.19.2-Linux-x86_64.sh"
         (add_event (WithProgress "Downloading cmake-3.19.2-Linux-x86_64")
            (world_at 1700000000000 None))).
Proof.
  apply (installLinux_rejects_with_download not_found_host
           "https://cmake.org/files/cmake.sh" (world_at 1700000000000 None)).
  split.
  - exists "/usr/bin/pkexec". split; [ reflexivity | discriminate ].
  - reflexivity.
Defined.

Lemma not_download_event_execute evs command args :
  Forall (fun ev => is_download_event ev = true) evs ->
  ~ In (Execute command args) evs.
Proof.
  intros Hall Hin. rewrite Stdlib.Lists.List.Forall_forall in Hall.
  specialize (Hall _ Hin). discriminate Hall.
Qed.

Lemma not_download_event_command evs command :
  Forall (fun ev => is_download_event ev = true) evs ->
  ~ In (ExecuteCommand command) evs.
Proof.
  intros Hall Hin. rewrite Stdlib.Lists.List.Forall_forall in Hall.
  specialize (Hall _ Hin). discriminate Hall.
Qed.

(** X9.  The only program [installLinux] ever runs is the [pkexec] that
    [paths.which] found, on the temporary file that [tmp.file] created and
    a 200 response filled, with the two fixed installer flags. *)
Theorem installer_runs_the_download (h : Host) (url : string) (w : World)
    (command : string) (args : list string) :
  In (Execute command args) (new_events w (installLinux h url w)) ->
  exists path header body,
    pkexec_found h command /\
    tmp_file h (basename h url ".sh") ".sh" = inr path /\
    https_get h url = Response 200 header body /\
    args = [path; "--exclude-subdir"; "--prefix=/usr/local"].
Proof.
  intros Hin.
  pose proof (download_task_events h url w) as Hdownload.
  destruct (installLinux_cases h url w)
    as [[Hmissing E]|[[pkexec [e1 [w1 [Hfound [Hdl E]]]]]
                     |[pkexec [path [w1 [w2 [tail [Hfound [Hdl [E [Htrace [Hexec _]]]]]]]]]]]].
  - rewrite E in Hin. unfold new_events in Hin.
    rewrite (added_app w _ [pkexec_missing]) in Hin by reflexivity.
    destruct Hin as [H|[]]. discriminate H.
  - rewrite E in Hin. rewrite Hdl in Hdownload.
    destruct Hdownload as [evs [Hevs Hall]]. unfold new_events in Hin.
    rewrite (added_app w w1 evs Hevs) in Hin.
    exfalso. exact (not_download_event_execute evs command args Hall Hin).
  - rewrite E in Hin. rewrite Hdl in Hdownload.
    destruct Hdownload as [[evs [Hevs Hall]] [Htmp [header [body Hget]]]].
    unfold new_events in Hin.
    rewrite (added_app w w2
               (evs ++ WithProgress "Running CMake Installer"
                    :: Execute pkexec (installer_args path) :: tail)%list) in Hin
      by (rewrite Htrace, Hevs, <- app_assoc; reflexivity).
    apply in_app_or in Hin.
    destruct Hin as [Hin|[Hin|[Hin|Hin]]].
    + exfalso. exact (not_download_event_execute evs command args Hall Hin).
    + discriminate Hin.
    + injection Hin as <- <-. exists path, header, body.
      repeat split; try assumption; apply Hfound.
    + exfalso. exact (Hexec command args Hin).
Qed.

Lemma installer_runs_the_download_witness :
  exists path header body,
    pkexec_found declining_host "/usr/bin/pkexec" /\
    tmp_file declining_host
      (basename declining_host "https://cmake.org/files/cmake.sh" ".sh") ".sh"
      = inr path /\
    https_get declining_host "https://cmake.org/files/cmake.sh"
      = Response 200 header body /\
    installer_args "/tmp/cmake-3.19.2-Linux-x86_64.sh"
      = [path; "--exclude-subdir"; "--prefix=/usr/local"].
Proof.
  apply (installer_runs_the_download declining_host
           "https://cmake.org/files/cmake.sh" (world_at 1700000000000 None)
           "/usr/bin/pkexec" (installer_args "/tmp/cmake-3.19.2-Linux-x86_64.sh")).
  vm_compute. tauto.
Defined.

(** X10.  [installLinux] reloads the window exactly when the download
    resolved, the installer exited with 0 and the user chose "Restart Now";
    it issues no other command. *)
Theorem reload_only_after_success (h : Host) (url : string) (w : World)
    (command : string) :
  In (ExecuteCommand command) (new_events w (installLinux h url w)) <->
  command = "workbench.action.reloadWindow" /\
  exists pkexec path w1,
    pkexec_found h pkexec /\
    download_task h url w = Normal path w1 /\
    retc (execute h pkexec [path; "--exclude-subdir"; "--prefix=/usr/local"]) = 0 /\
    chosen_item (restart_reply h) = Some "Restart Now".
Proof.
  pose proof (download_task_events h url w) as Hdownload.
  destruct (installLinux_cases h url w)
    as [[Hmissing E]|[[pkexec [e1 [w1 [Hfound [Hdl E]]]]]
                     |[pkexec [path [w1 [w2 [tail [Hfound [Hdl [E [Htrace [_ Hreload]]]]]]]]]]]].
  - rewrite E. unfold new_events.
    rewrite (added_app w _ [pkexec_missing]) by reflexivity. split.
    + intros [H|[]]. discriminate H.
    + intros [_ [pkexec [path [w1 [[Hwhich Hne] _]]]]]. exfalso.
      destruct Hmissing as [H|H]; rewrite H in Hwhich; [ discriminate | ].
      injection Hwhich as <-. apply Hne. reflexivity.
  - rewrite E. rewrite Hdl in Hdownload.
    destruct Hdownload as [evs [Hevs Hall]]. unfold new_events.
    rewrite (added_app w w1 evs Hevs). split.
    + intros Hin. exfalso. exact (not_download_event_command evs command Hall Hin).
    + intros [_ [pkexec' [path [w1' [_ [H _]]]]]]. rewrite Hdl in H. discriminate H.
  - rewrite E. rewrite Hdl in Hdownload.
    destruct Hdownload as [[evs [Hevs Hall]] _]. unfold new_events.
    rewrite (added_app w w2
               (evs ++ WithProgress "Running CMake Installer"
                    :: Execute pkexec (installer_args path) :: tail)%list)
      by (rewrite Htrace, Hevs, <- app_assoc; reflexivity).
    split.
    + intros Hin. apply in_app_or in Hin.
      destruct Hin as [Hin|[Hin|[Hin|Hin]]].
      * exfalso. exact (not_download_event_command evs command Hall Hin).
      * discriminate Hin.
      * discriminate Hin.
      * apply Hreload in Hin. destruct Hin as [Hcmd [Hretc Hchosen]].
        split; [ exact Hcmd | ]. exists pkexec, path, w1.
        repeat split; try assumption; apply Hfound.
    + intros [Hcmd [pkexec' [path' [w1' [[Hwhich' _] [Hdl' [Hretc Hchosen]]]]]]].
      rewrite Hdl in Hdl'. injection Hdl' as <- <-.
      destruct Hfound as [Hwhich _]. rewrite Hwhich in Hwhich'.
      injection Hwhich' as <-.
      apply in_or_app. right. right. right. apply Hreload.
      repeat split; assumption.
Qed.

Lemma reload_only_after_success_witness :
  In (ExecuteCommand "workbench.action.reloadWindow")
     (new_events (world_at 1700000000000 None)
        (installLinux restarting_host "https://cmake.org/files/cmake.sh"
           (world_at 1700000000000 None))).
Proof.
  apply (reload_only_after_success restarting_host
           "https://cmake.org/files/cmake.sh" (world_at 1700000000000 None)
           "workbench.action.reloadWindow").
  split; [ reflexivity | ].
  exists "/usr/bin/pkexec", "/tmp/cmake-3.19.2-Linux-x86_64.sh", downloaded_world.
  split; [ split; [ reflexivity | discriminate ] | ].
  split; [ vm_compute; reflexivity | ]. split; reflexivity.
Defined.

(** X14.  A call rejects in two situations only: the coercion of a stored
    [lastNag] throws at the gate, before anything has happened, or the user
    consented, [pkexec] is there and the download rejects; the call then
    rejects with the exception of the download.  A version that does not
    parse, a missing [pkexec] and a failing installer never reject the
    call. *)
Theorem upgrade_rejects_only_at_gate_or_download (h : Host) (opt : UpgradeOptions)
    (w : World) (e : Exception) (w' : World) :
  maybeUpgradeCMake h opt w = Throw e w' ->
  (w' = w /\
   ToNumber (get_lastNag (stored_preference w)) = None /\
   engine_less_than h (get_lastNag (stored_preference w)) (now w) nag_window = inl e) \/
  (exists c pkexec,
     consent h opt c /\
     pkexec_found h pkexec /\
     download_task h (linuxURL (available opt))
       (consented h opt c (add_event (compared opt) w)) = Throw e w').
Proof.
  intros Hthrow.
  destruct (upgrade_cases h opt w) as [[_ [Hgate _]]|[c [Hconsent [_ E]]]].
  - left. apply (Hgate e w' Hthrow).
  - right. rewrite E in Hthrow. unfold bind in Hthrow.
    destruct (installLinux h (linuxURL (available opt))
                (consented h opt c (add_event (compared opt) w)))
      as [v w1|e1 w1] eqn:Hinstall; [ discriminate Hthrow | ].
    injection Hthrow as -> ->.
    destruct (installLinux_cases h (linuxURL (available opt))
                (consented h opt c (add_event (compared opt) w)))
      as [[_ E1]|[[pkexec [e1 [w1 [Hfound [Hdl E1]]]]]
                 |[pkexec [path [w1 [w2 [tail [_ [_ [E1 _]]]]]]]]]];
      rewrite E1 in Hinstall; try discriminate Hinstall.
    injection Hinstall as -> ->.
    exists c, pkexec. split; [ exact Hconsent | ]. split; [ exact Hfound | exact Hdl ].
Qed.

Lemma upgrade_rejects_only_at_gate_or_download_witness :
  let w := world_at 1700000000000 None in
  let e := Error "Non-200 response when downloading new CMake installer" in
  let w' :=
    add_file "/tmp/cmake-3.19.2-Linux-x86_64.sh"
      (add_event (WithProgress "Downloading cmake-3.19.2-Linux-x86_64")
         (consented not_found_host sample_options doTheUpgrade
            (add_event (compared sample_options) w))) in
  (w' = w /\
   ToNumber (get_lastNag (stored_preference w)) = None /\
   engine_less_than not_found_host (get_lastNag (stored_preference w)) (now w) nag_window
     = inl e) \/
  (exists c pkexec,
     consent not_found_host sample_options c /\
     pkexec_found not_found_host pkexec /\
     download_task not_found_host (linuxURL (available sample_options))
       (consented not_found_host sample_options c
          (add_event (compared sample_options) w)) = Throw e w').
Proof.
  apply (upgrade_rejects_only_at_gate_or_download not_found_host sample_options
           (world_at 1700000000000 None)).
  vm_compute. reflexivity.
Defined.

(** *** How much progress is reported *)

Lemma downloadFile_deltas h url prefix postfix w fpath header body size :
  tmp_file h prefix postfix = inr fpath ->
  https_get h url = Response 200 header body ->
  parseInt (content_length_or_zero header) = Num size ->
  0 < size ->
  exists deltas,
    downloadFile h url prefix postfix host_progress w =
      Normal fpath
        (add_events (report_events size 0 deltas ++ [downloaded_message url fpath])
           (add_file fpath w)) /\
    Forall (fun delta => size < 100 * delta) deltas /\
    0 <= received body - total_of deltas /\
    100 * (received body - total_of deltas) <= size.
Proof.
  intros Htmp Hget Hparse Hsize.
  rewrite (downloadFile_ok h url prefix postfix host_progress w fpath header body Htmp Hget).
  rewrite Hparse.
  destruct (on_body_throttle size body Hsize
              {| prevDownloaded := 0; totalDownloaded := 0 |} (add_file fpath w))
    as [deltas [st' [Hrun [Hall [Hprev [Htotal [Hord Hlag]]]]]]];
    [ simpl; lia | simpl; lia | ].
  simpl in Hrun, Hprev, Htotal.
  exists deltas. unfold bind at 1. rewrite Hrun. unfold bind, emit, ret.
  rewrite add_events_add_event.
  repeat split; [ exact Hall | lia | lia ].
Qed.

Lemma reports_of_report_events size url fpath deltas :
  forall reported,
    List.filter is_progress_report
      (report_events size reported deltas ++ [downloaded_message url fpath])
      = report_events size reported deltas /\
    length (report_events size reported deltas) = length deltas.
Proof.
  induction deltas as [|delta rest IH]; intros reported; simpl.
  - split; reflexivity.
  - destruct (IH (reported + delta)) as [Hfilter Hlength].
    rewrite Hfilter, Hlength. split; reflexivity.
Qed.

Lemma deltas_outweigh_count size deltas :
  Forall (fun delta => size < 100 * delta) deltas ->
  Z.of_nat (length deltas) * (size + 1) <= 100 * total_of deltas.
Proof.
  induction 1 as [|delta rest Hdelta _ IH]; simpl length; simpl total_of.
  - simpl. lia.
  - rewrite Nat2Z.inj_succ. lia.
Qed.

(** X11.  The throttle bounds the number of progress reports: with a
    declared positive total, the reports made times the total (plus one)
    is at most a hundred times the bytes received; so a body no longer than
    the declared total is reported at most 99 times, however small its
    chunks. *)
Theorem progress_reports_are_few (h : Host) (url prefix postfix : string) (w : World)
    (fpath : string) (header : option string) (body : list nat) (size : Z) :
  tmp_file h prefix postfix = inr fpath ->
  https_get h url = Response 200 header body ->
  parseInt (content_length_or_zero header) = Num size ->
  0 < size ->
  let evs := new_events w (downloadFile h url prefix postfix host_progress w) in
  let n := Z.of_nat (length (List.filter is_progress_report evs)) in
  n * (size + 1) <= 100 * received body /\
  (received body <= size -> n <= 99).
Proof.
  intros Htmp Hget Hparse Hsize evs n.
  destruct (downloadFile_deltas h url prefix postfix w fpath header body size
              Htmp Hget Hparse Hsize) as [deltas [Hrun [Hall [Hlow Hlag]]]].
  assert (Hn : n = Z.of_nat (length deltas)).
  { unfold n, evs. rewrite Hrun. unfold new_events.
    rewrite (added_app w _
               (report_events size 0 deltas ++ [downloaded_message url fpath])%list)
      by reflexivity.
    destruct (reports_of_report_events size url fpath deltas 0) as [-> ->].
    reflexivity. }
  pose proof (deltas_outweigh_count size deltas Hall) as Hcount.
  rewrite Hn. split; [ lia | ]. intros Hfits. nia.
Qed.

Lemma progress_reports_are_few_witness :
  let w := world_at 1700000000000 None in
  let evs :=
    new_events w
      (downloadFile ten_chunks_host "https://cmake.org/files/cmake.sh" "cmake" ".sh"
         host_progress w) in
  let n := Z.of_nat (length (List.filter is_progress_report evs)) in
  n * (100 + 1) <= 100 * received (repeat 10%nat 10) /\
  (received (repeat 10%nat 10) <= 100 -> n <= 99).
Proof.
  apply (progress_reports_are_few ten_chunks_host
           "https://cmake.org/files/cmake.sh" "cmake" ".sh"
           (world_at 1700000000000 None) "/tmp/cmake-3.19.2-Linux-x86_64.sh"
           (Some "100") (repeat 10%nat 10) 100).
  - reflexivity.
  - reflexivity.
  - reflexivity.
  - lia.
Defined.

(** X12.  While a download with a positive declared total is under way,
    the data handler's counters stay in step with the transfer: after any
    number of chunks [totalDownloaded] is the number of bytes received so
    far, and the last reported point [prevDownloaded] trails it by at most
    1% of the total. *)
Theorem unreported_bytes_stay_below_one_percent (size : Z) (body : list nat)
    (chunks : nat) (w : World) :
  0 < size ->
  exists st w',
    on_body host_progress (Num size)
      {| prevDownloaded := 0; totalDownloaded := 0 |} (take chunks body) w
      = Normal st w' /\
    totalDownloaded st = received (take chunks body) /\
    0 <= prevDownloaded st <= totalDownloaded st /\
    100 * (totalDownloaded st - prevDownloaded st) <= size.
Proof.
  intros Hsize.
  destruct (on_body_throttle size (take chunks body) Hsize
              {| prevDownloaded := 0; totalDownloaded := 0 |} w)
    as [deltas [st [Hrun [Hall [Hprev [Htotal [Hord Hlag]]]]]]];
    [ simpl; lia | simpl; lia | ].
  simpl in Hprev, Htotal.
  pose proof (deltas_outweigh_count size deltas Hall) as Hcount.
  exists st, (add_events (report_events size 0 deltas) w).
  repeat split; [ exact Hrun | lia | nia | exact Hord | exact Hlag ].
Qed.

Lemma unreported_bytes_stay_below_one_percent_witness :
  exists st w',
    on_body host_progress (Num 1000)
      {| prevDownloaded := 0; totalDownloaded := 0 |}
      (take 2 [500%nat; 5%nat; 495%nat]) (world_at 1700000000000 None)
      = Normal st w' /\
    totalDownloaded st = received (take 2 [500%nat; 5%nat; 495%nat]) /\
    0 <= prevDownloaded st <= totalDownloaded st /\
    100 * (totalDownloaded st - prevDownloaded st) <= 1000.
Proof.
  apply (unreported_bytes_stay_below_one_percent 1000 [500%nat; 5%nat; 495%nat] 2
           (world_at 1700000000000 None)).
  lia.
Defined.

Lemma negative_total_never_exceeds size x :
  size < 0 -> 0 <= x -> exceeds_one (percent x (Num size)) = false.
Proof.
  intros Hsize Hx. unfold exceeds_one, percent.
  apply negb_false_iff, Qle_bool_iff. rewrite Qred_correct.
  destruct size as [|p|p]; try lia.
  unfold Qle, Qdiv, Qmult, Qinv, inject_Z. simpl. lia.
Qed.

Lemma on_body_nonpositive pr size body :
  size <= 0 ->
  forall st w,
    prevDownloaded st <= totalDownloaded st ->
    on_body pr (Num size) st body w =
      Normal {| prevDownloaded := prevDownloaded st;
                totalDownloaded := totalDownloaded st + received body |} w.
Proof.
  intros Hsize. induction body as [|data_length rest IH]; intros st w Hord.
  - simpl. unfold ret. destruct st. simpl. rewrite Z.add_0_r. reflexivity.
  - simpl. unfold bind.
    assert (Hstep : on_data pr (Num size) st data_length w =
              Normal {| prevDownloaded := prevDownloaded st;
                        totalDownloaded := totalDownloaded st + Z.of_nat data_length |} w).
    { unfold on_data. destruct (Z.eq_dec size 0) as [->|Hnz]; [ reflexivity | ].
      destruct (strict_neq_zero (Num size)); [ | reflexivity ].
      rewrite negative_total_never_exceeds by lia. reflexivity. }
    rewrite Hstep, IH by (simpl; lia). simpl. rewrite Z.add_assoc. reflexivity.
Qed.

(** X13.  A declared total that is zero or negative switches the progress
    reports off: whatever the body, the progress handle is never called and
    the download is logged and resolves with the path. *)
Theorem nonpositive_total_reports_nothing (h : Host) (url prefix postfix : string)
    (pr : ProgressHandle) (w : World) (fpath : string) (header : option string)
    (body : list nat) (size : Z) :
  tmp_file h prefix postfix = inr fpath ->
  https_get h url = Response 200 header body ->
  parseInt (content_length_or_zero header) = Num size ->
  size <= 0 ->
  downloadFile h url prefix postfix pr w =
    Normal fpath
      (add_event (LogInfo ("Downloaded " ++ url ++ " to " ++ fpath)) (add_file fpath w)).
Proof.
  intros Htmp Hget Hparse Hsize.
  rewrite (downloadFile_ok h url prefix postfix pr w fpath header body Htmp Hget).
  rewrite Hparse. unfold bind at 1.
  rewrite (on_body_nonpositive pr size body Hsize) by (simpl; lia).
  reflexivity.
Qed.

Lemma nonpositive_total_reports_nothing_witness :
  downloadFile (accepting_host (Response 200 (Some "-1") [40%nat; 60%nat]) 0)
    "https://cmake.org/files/cmake.sh" "cmake" ".sh" host_progress
    (world_at 1700000000000 None) =
    Normal "/tmp/cmake-3.19.2-Linux-x86_64.sh"
      (add_event
         (LogInfo ("Downloaded " ++ "https://cmake.org/files/cmake.sh" ++ " to "
                   ++ "/tmp/cmake-3.19.2-Linux-x86_64.sh"))
         (add_file "/tmp/cmake-3.19.2-Linux-x86_64.sh" (world_at 1700000000000 None))).
Proof.
  apply (nonpositive_total_reports_nothing
           (accepting_host (Response 200 (Some "-1") [40%nat; 60%nat]) 0)
           "https://cmake.org/files/cmake.sh" "cmake" ".sh" host_progress
           (world_at 1700000000000 None) "/tmp/cmake-3.19.2-Linux-x86_64.sh"
           (Some "-1") [40%nat; 60%nat] (-1)).
  - reflexivity.
  - reflexivity.
  - reflexivity.
  - lia.
Defined.

(** *** The temporary file *)

Lemma download_task_file h url w fpath :
  tmp_file h (basename h url ".sh") ".sh" = inr fpath ->
  match download_task h url w with
  | Normal _ w' | Throw _ w' => fpath ∈ files w'
  end.
Proof.
  intros Htmp. rewrite download_task_unfold.
  set (w1 := add_event (WithProgress ("Downloading " ++ basename h url ".sh")) w).
  assert (Hfile : fpath ∈ files (add_file fpath w1)).
  { simpl. apply elem_of_union_l, elem_of_singleton. reflexivity. }
  unfold downloadFile. rewrite Htmp. unfold bind at 1, create_file.
  destruct (https_get h url) as [e|e|statusCode header body];
    [ exact Hfile | exact Hfile | ].
  destruct (negb (statusCode =? 200)); [ exact Hfile | ].
  destruct (on_body_settles (parseInt (content_length_or_zero header)) body
              {| prevDownloaded := 0; totalDownloaded := 0 |} (add_file fpath w1))
    as [st [evs Hbody]].
  unfold bind at 1. rewrite Hbody. exact Hfile.
Qed.

Lemma installLinux_files_after_download h url w pkexec path w1 :
  pkexec_found h pkexec ->
  download_task h url w = Normal path w1 ->
  match installLinux h url w with
  | Normal _ w' | Throw _ w' => files w' = files w1
  end.
Proof.
  intros [Hwhich Hne] Hdl.
  rewrite (installLinux_after_download h url w pkexec path w1 Hwhich Hne Hdl).
  cbv zeta.
  destruct (retc _ =? 127); [ reflexivity | ].
  destruct (retc _ =? 126); [ reflexivity | ].
  destruct (negb (retc _ =? 0)); [ reflexivity | ].
  unfold bind, showInformationMessage, bind. simpl.
  destruct (chosen_item _) as [c|]; [ | reflexivity ].
  destruct (String.eqb c "Restart Now"); reflexivity.
Qed.

(** X15.  [installLinux] never removes a file, and the temporary installer
    is never cleaned up: once [pkexec] is found and [tmp.file] has created
    the file, it is on disk when [installLinux] settles, whether the
    download failed, the installer failed or the installation succeeded. *)
Theorem temporary_installer_is_never_removed (h : Host) (url : string) (w : World) :
  match installLinux h url w with
  | Normal _ w' | Throw _ w' =>
      files w ⊆ files w' /\
      forall pkexec fpath,
        pkexec_found h pkexec ->
        tmp_file h (basename h url ".sh") ".sh" = inr fpath ->
        fpath ∈ files w'
  end.
Proof.
  pose proof (installLinux_keeps_files h url w) as Hkeep.
  assert (Hfile : forall pkexec fpath,
            pkexec_found h pkexec ->
            tmp_file h (basename h url ".sh") ".sh" = inr fpath ->
            match installLinux h url w with
            | Normal _ w' | Throw _ w' => fpath ∈ files w'
            end).
  { intros pkexec fpath Hfound Htmp.
    pose proof (download_task_file h url w fpath Htmp) as Hdownloaded.
    destruct (download_task h url w) as [path w1|e w1] eqn:Hdl.
    - pose proof (installLinux_files_after_download h url w pkexec path w1
                    Hfound Hdl) as Hsame.
      destruct (installLinux h url w); rewrite Hsame; exact Hdownloaded.
    - destruct (installLinux_cases h url w)
        as [[Hmissing _]|[[pk [e1 [w2 [_ [Hdl' E]]]]]
                         |[pk [path [w2 [w3 [tail [_ [Hdl' _]]]]]]]]].
      + exfalso. destruct Hfound as [Hwhich Hne].
        destruct Hmissing as [H|H]; rewrite H in Hwhich; [ discriminate | ].
        injection Hwhich as <-. apply Hne. reflexivity.
      + rewrite E. rewrite Hdl in Hdl'. injection Hdl' as <- <-. exact Hdownloaded.
      + rewrite Hdl in Hdl'. discriminate Hdl'. }
  destruct (installLinux h url w) as [v w'|e w'];
    (split; [ exact Hkeep | intros pkexec fpath Hfound Htmp;
                            exact (Hfile pkexec fpath Hfound Htmp) ]).
Qed.

Lemma temporary_installer_is_never_removed_witness :
  match installLinux declining_host "https://cmake.org/files/cmake.sh"
          (world_at 1700000000000 None) with
  | Normal _ w' | Throw _ w' =>
      files (world_at 1700000000000 None) ⊆ files w' /\
      forall pkexec fpath,
        pkexec_found declining_host pkexec ->
        tmp_file declining_host
          (basename declining_host "https://cmake.org/files/cmake.sh" ".sh") ".sh"
          = inr fpath ->
        fpath ∈ files w'
  end.
Proof.
  apply (temporary_installer_is_never_removed declining_host
           "https://cmake.org/files/cmake.sh" (world_at 1700000000000 None)).
Defined.

Lemma preference_round_trip_witness :
  let w := world_at 1700000000000 (Some (Str "never")) in
  bind (setUpgradePreference (UpgradeDelay 1700000000000)) (fun _ => upgradePreference) w
    = Normal (UpgradeDelay 1700000000000) (written (UpgradeDelay 1700000000000) w) /\
  bind (setUpgradePreference (UpgradeDelay 1700000000000))
       (fun _ => bind (setUpgradePreference (Str "never")) (fun _ => upgradePreference)) w
    = Normal (Str "never")
        (written (Str "never") (written (UpgradeDelay 1700000000000) w)) /\
  forall key, key <> UPGRADE_PREFERENCE_KEY ->
    globalState (written (UpgradeDelay 1700000000000) w) !! key = globalState w !! key.
Proof.
  apply (preference_round_trip (UpgradeDelay 1700000000000) (Str "never")
           (world_at 1700000000000 (Some (Str "never")))).
Defined.
